(** * ic3-labels: cascade extraction (labels/utils/cascade.py)

    A shallow embedding of the cascade helpers of [ic3_labels] and the
    properties of its maximum-extension search, of the interaction-cascade
    builder and of the energy-equivalence helpers.

    Numbers.  The code is embedded twice.

    - Over the reals ([R]): Python floats idealised as real numbers; the one
      field the code inspects with [np.isfinite], the particle length, keeps
      the non-finite values of a float as separate constructors.  This
      model carries the properties of the builder's bookkeeping (which
      fields a cascade gets, which daughters count for its energy, which
      assertion fails when) and the properties of the search that are
      conditional on a result of the search.

    - Over binary64 floats (module [F64]): every number is an IEEE 754
      double, arithmetic rounds, and a comparison with NaN is false.  This
      model carries the properties in which a NaN or a rounded tie decides
      what the search returns: which candidate it selects, when it returns
      [None], and when the callers raise.

    Tree.  The [I3MCTree] is a forest in which every particle has an ordered
    list of daughters.  A particle handle of the model is the node of the
    forest, so [tree.get_daughters(particle)] is the projection of the
    node's daughter list.

    Exceptions.  A function that can fail an [assert] returns an [outcome]:
    either [Returns v] or [Raises e]. *)

From Stdlib Require Import Reals Lra List String Bool ZArith Lia.
From Stdlib Require Floats.
Import ListNotations.
Open Scope R_scope.

Set Implicit Arguments.

(** ** Floats, positions, directions *)

(** A float as the code sees it: a finite value, or one of the three
    non-finite values. *)
Inductive pyfloat : Type :=
| Finite (r : R)
| PosInf
| NegInf
| NaN.

(** [np.isfinite] *)
Definition isfinite (f : pyfloat) : bool :=
  match f with
  | Finite _ => true
  | _ => false
  end.

(** [f > r] for a float [f] and a finite [r] *)
Definition float_gt (f : pyfloat) (r : R) : bool :=
  match f with
  | Finite v => if Rgt_dec v r then true else false
  | PosInf => true
  | NegInf => false
  | NaN => false
  end.

Record I3Position : Type := mkPos { px : R; py : R; pz : R }.

Record I3Direction : Type := mkDir { dx : R; dy : R; dz : R }.

(** [a + b] on positions *)
Definition pos_add (a b : I3Position) : I3Position :=
  mkPos (px a + px b) (py a + py b) (pz a + pz b).

(** [a - b] on positions *)
Definition pos_sub (a b : I3Position) : I3Position :=
  mkPos (px a - px b) (py a - py b) (pz a - pz b).

(** [dir * length]: the displacement along a direction *)
Definition dir_mul (d : I3Direction) (l : R) : I3Position :=
  mkPos (dx d * l) (dy d * l) (dz d * l).

(** [p.magnitude] *)
Definition magnitude (p : I3Position) : R :=
  sqrt (px p * px p + py p * py p + pz p * pz p).

(** ** Particles *)

Inductive ParticleType : Type :=
| unknown
| Gamma
| EPlus
| EMinus
| MuPlus
| MuMinus
| Pi0
| PiPlus
| PiMinus
| Neutron
| PPlus
| NuE
| NuEBar
| NuMu
| NuMuBar
| TauPlus
| TauMinus
| NuTau
| NuTauBar
| Hadrons.

Inductive ParticleShape : Type :=
| Null
| Primary
| TopShower
| Cascade
| InfiniteTrack
| StartingTrack
| StoppingTrack
| ContainedTrack
| MCTrack
| Dark.

Inductive LocationType : Type :=
| Anywhere
| IceTop
| InIce
| InActiveVolume.

Scheme Equality for ParticleType.
Scheme Equality for LocationType.

Record I3Particle : Type := mkParticle {
  id : nat;
  type : ParticleType;
  pos : I3Position;
  dir : I3Direction;
  time : R;
  energy : R;
  length : pyfloat;
  shape : ParticleShape;
  location_type : LocationType
}.

(** [p.is_neutrino] of the dataclasses: the six neutrino species. *)
Definition is_neutrino (p : I3Particle) : bool :=
  match type p with
  | NuE | NuEBar | NuMu | NuMuBar | NuTau | NuTauBar => true
  | _ => false
  end.

(** Attribute assignments [p.field = v]. *)
Definition set_shape (p : I3Particle) (v : ParticleShape) : I3Particle :=
  mkParticle (id p) (type p) (pos p) (dir p) (time p) (energy p) (length p)
             v (location_type p).

Definition set_dir (p : I3Particle) (v : I3Direction) : I3Particle :=
  mkParticle (id p) (type p) (pos p) v (time p) (energy p) (length p)
             (shape p) (location_type p).

Definition set_pos (p : I3Particle) (v : I3Position) : I3Particle :=
  mkParticle (id p) (type p) v (dir p) (time p) (energy p) (length p)
             (shape p) (location_type p).

Definition set_time (p : I3Particle) (v : R) : I3Particle :=
  mkParticle (id p) (type p) (pos p) (dir p) v (energy p) (length p)
             (shape p) (location_type p).

Definition set_length (p : I3Particle) (v : pyfloat) : I3Particle :=
  mkParticle (id p) (type p) (pos p) (dir p) (time p) (energy p) v
             (shape p) (location_type p).

Definition set_energy (p : I3Particle) (v : R) : I3Particle :=
  mkParticle (id p) (type p) (pos p) (dir p) (time p) v (length p)
             (shape p) (location_type p).

(** ** The particle tree *)

Unset Elimination Schemes.
Inductive MCNode : Type :=
| Node (particle : I3Particle) (daughters : list MCNode).
Set Elimination Schemes.

Definition particle (n : MCNode) : I3Particle :=
  match n with Node p _ => p end.

Record I3Frame : Type := mkFrame { I3MCTree : list MCNode }.

(** [tree.get_daughters(particle)] *)
Definition get_daughters (tree : list MCNode) (n : MCNode) : list MCNode :=
  match n with Node _ ds => ds end.

(** ** Outcomes *)

Inductive exn : Type :=
| AssertionError (msg : string)
| TypeError
| IndexError.

Inductive outcome (A : Type) : Type :=
| Returns (a : A)
| Raises (e : exn).

Arguments Raises {A} e.

Definition bind {A B : Type} (m : outcome A) (k : A -> outcome B)
  : outcome B :=
  match m with
  | Returns a => k a
  | Raises e => Raises e
  end.

Notation "x <- m ;; k" := (bind m (fun x => k))
  (at level 61, m at next level, right associativity).

(** [assert c, msg] *)
Definition assert (c : bool) (msg : string) : outcome unit :=
  if c then Returns tt else Raises (AssertionError msg).

(** [vertex - extension] where [extension] may be [None]: subtracting
    [None] from a position is a type error. *)
Definition sub_opt (vertex : I3Position) (extension : option I3Position)
  : outcome I3Position :=
  match extension with
  | Some e => Returns (pos_sub vertex e)
  | None => Raises TypeError
  end.

(** ** get_extension_from_vertex *)

(** The end position of a particle (lines 109-112): its position advanced
    by its length along its direction when the length is finite and
    positive, its position otherwise. *)
Definition particle_end_pos (p : I3Particle) : I3Position :=
  if isfinite (length p) && float_gt (length p) 0 then
    match length p with
    | Finite l => pos_add (pos p) (dir_mul (dir p) l)
    | _ => pos p
    end
  else pos p.

Section ExtensionLoop.
(** The loop [for d in daughters] of lines 120-128, over the recursive
    call [extension_of d]. *)
Variable extension_of : MCNode -> outcome (option I3Position).
Variable vertex : I3Position.

Fixpoint extension_loop (daughters : list MCNode) (max_distance : R)
         (max_extension : option I3Position)
  : outcome (option I3Position) :=
  match daughters with
  | [] => Returns max_extension
  | d :: rest =>
      extension <- extension_of d ;;
      diff <- sub_opt vertex extension ;;
      let dist := magnitude diff in
      if Rge_dec dist max_distance
      then extension_loop rest dist extension
      else extension_loop rest max_distance max_extension
  end.
End ExtensionLoop.

Fixpoint get_extension_from_vertex (frame : I3Frame) (particle : MCNode)
         (vertex : I3Position) (consider_particle_length : bool)
         {struct particle} : outcome (option I3Position) :=
  match particle with
  | Node p daughters =>
      let max_distance :=
        if consider_particle_length
        then magnitude (pos_sub vertex (particle_end_pos p))
        else 0 in
      let max_extension :=
        if consider_particle_length
        then Some (particle_end_pos p)
        else None in
      extension_loop
        (fun d => get_extension_from_vertex frame d vertex true)
        vertex daughters max_distance max_extension
  end.

(** ** get_interaction_extension_length, get_interaction_extension_pos *)

Definition get_interaction_extension_length (frame : I3Frame)
           (primary : MCNode) : outcome R :=
  let tree := I3MCTree frame in
  let daughters := get_daughters tree primary in
  _ <- assert (0 <? List.length daughters)%nat
              "Expected at least 1 daughter" ;;
  match daughters with
  | [] => Raises IndexError
  | d0 :: _ =>
      let vertex := pos (particle d0) in
      extension <- get_extension_from_vertex frame primary vertex false ;;
      diff <- sub_opt vertex extension ;;
      Returns (magnitude diff)
  end.

Definition get_interaction_extension_pos (frame : I3Frame)
           (primary : MCNode) : outcome (option I3Position) :=
  let tree := I3MCTree frame in
  let daughters := get_daughters tree primary in
  _ <- assert (2 <=? List.length daughters)%nat
              "Expected at least 2 daughters" ;;
  match daughters with
  | [] => Raises IndexError
  | d0 :: _ =>
      let vertex := pos (particle d0) in
      get_extension_from_vertex frame primary vertex false
  end.

(** ** The external collaborators

    The shower-parameter model, the geometry tests and the neutrino
    identification helper are imported by the module and are not part of
    it; the functions below take them as parameters. *)

(** Modelled from the spec: the shower-parameter model [ShowerParameters],
    which the module imports from [icecube.sim_services] or, failing that,
    from [ic3_labels.labels.utils.shower_parameters]; neither is part of
    the sources at hand.  The specification gives it the signature
    (type, energy) -> scale factor and leaves the parametrization open, so
    a model is any such function. *)
Definition ShowerModel : Type := ParticleType -> R -> R.

Section Cascade.
(** [scipy.spatial.ConvexHull] *)
Variable ConvexHull : Type.

(** [ShowerParameters(type, energy).emScale] *)
Variable emScale : ShowerModel.

(** [geometry.point_is_inside(convex_hull, (x, y, z))] *)
Variable point_is_inside : ConvexHull -> R * R * R -> bool.

(** [geometry.is_in_detector_bounds(pos, extend_boundary)] *)
Variable is_in_detector_bounds : I3Position -> R -> bool.

(** [get_interaction_neutrino(frame, primary, convex_hull,
    extend_boundary, sanity_check)] *)
Variable get_interaction_neutrino :
  I3Frame -> MCNode -> option ConvexHull -> R -> bool -> option MCNode.

(** *** get_cascade_em_equivalent *)
Definition get_cascade_em_equivalent (cascade : I3Particle) : R :=
  let em_scale := emScale (type cascade) (energy cascade) in
  energy cascade * em_scale.

(** *** get_cascade_energy_deposited *)
Definition get_cascade_energy_deposited (frame : I3Frame)
           (convex_hull : ConvexHull) (cascade : I3Particle) : R :=
  if point_is_inside convex_hull
       (px (pos cascade), py (pos cascade), pz (pos cascade))
  then get_cascade_em_equivalent cascade
  else 0.

(** *** get_cascade_of_primary_nu *)

(** [d.type in [MuMinus, MuPlus, TauMinus, TauPlus]] *)
Definition is_mu_or_tau (t : ParticleType) : bool :=
  existsb (ParticleType_beq t) [MuMinus; MuPlus; TauMinus; TauPlus].

(** One turn of the loop of lines 270-300 on the running sum. *)
Definition add_daughter_energy (deposited_energy : R) (d : MCNode) : R :=
  let p := particle d in
  if is_neutrino p then deposited_energy
  else if negb (LocationType_beq (location_type p) InIce)
  then deposited_energy
  else if is_mu_or_tau (type p)
  then deposited_energy + energy p
  else deposited_energy + get_cascade_em_equivalent p.

Definition get_cascade_of_primary_nu (frame : I3Frame) (primary : MCNode)
           (convex_hull : option ConvexHull) (extend_boundary : R)
           (sanity_check : bool) : outcome (option I3Particle) :=
  match get_interaction_neutrino frame primary convex_hull
                                 extend_boundary sanity_check with
  | None => Returns None
  | Some neutrino =>
      if negb (is_neutrino (particle neutrino)) then Returns None
      else
        let mctree := I3MCTree frame in
        let daughters := get_daughters mctree neutrino in
        _ <- assert (0 <? List.length daughters)%nat
                    "Expected at least one daughter!" ;;
        match daughters with
        | [] => Raises IndexError
        | d0 :: _ =>
            let point_inside :=
              match convex_hull with
              | None =>
                  is_in_detector_bounds (pos (particle d0)) extend_boundary
              | Some hull =>
                  point_is_inside hull (px (pos (particle d0)),
                                        py (pos (particle d0)),
                                        pz (pos (particle d0)))
              end in
            _ <- assert point_inside
                   "Expected interaction to be inside defined volume!" ;;
            let cascade := particle neutrino in
            let cascade := set_shape cascade Cascade in
            let cascade := set_dir cascade (dir (particle primary)) in
            let cascade := set_pos cascade (pos (particle d0)) in
            let cascade := set_time cascade (time (particle d0)) in
            extension_length <-
              get_interaction_extension_length frame neutrino ;;
            let cascade := set_length cascade (Finite extension_length) in
            let deposited_energy :=
              fold_left add_daughter_energy daughters 0 in
            let cascade := set_energy cascade deposited_energy in
            Returns (Some cascade)
        end
  end.
End Cascade.

(** ** The claim's vocabulary

    Definitions that follow the words of the specification, to compare the
    code with. *)

(** The Euclidean distance of a point to the reference vertex. *)
Definition distance (vertex c : I3Position) : R :=
  sqrt ((px vertex - px c) * (px vertex - px c)
        + (py vertex - py c) * (py vertex - py c)
        + (pz vertex - pz c) * (pz vertex - pz c)).

(** A particle's endpoint in the specification's words: position plus
    direction times length when the length is finite and strictly positive,
    the raw position otherwise. *)
Definition endpoint (p : I3Particle) : I3Position :=
  match length p with
  | Finite l =>
      if Rlt_dec 0 l
      then mkPos (px (pos p) + dx (dir p) * l)
                 (py (pos p) + dy (dir p) * l)
                 (pz (pos p) + dz (dir p) * l)
      else pos p
  | _ => pos p
  end.

(** The endpoints of a particle and of all its descendants, in depth-first
    daughter order: the particle first, then each daughter's subtree. *)
Fixpoint endpoints (n : MCNode) : list I3Position :=
  match n with
  | Node p ds => endpoint p :: flat_map endpoints ds
  end.

(** The candidates of a search: the particle's own endpoint when its length
    is considered, then the endpoints of all its descendants. *)
Definition candidates (n : MCNode) (consider_particle_length : bool)
  : list I3Position :=
  match n with
  | Node p ds =>
      (if consider_particle_length then [endpoint p] else [])
        ++ flat_map endpoints ds
  end.

(** [e] is the farthest candidate of [l] from the vertex, and the last one
    visited at that distance: no candidate before it is farther, every
    candidate after it is strictly nearer. *)
Definition farthest_last (vertex : I3Position) (l : list I3Position)
           (e : I3Position) : Prop :=
  exists before after,
    l = before ++ e :: after
    /\ Forall (fun c => distance vertex c <= distance vertex e) before
    /\ Forall (fun c => distance vertex c < distance vertex e) after.

(** The result of a search over the candidates [l]: nothing when there is
    no candidate, the farthest, last-visited candidate otherwise. *)
Definition search_result (vertex : I3Position) (l : list I3Position)
           (r : option I3Position) : Prop :=
  match r with
  | None => l = []
  | Some e => farthest_last vertex l e
  end.

(** The visible energy a daughter contributes to a cascade, in the
    specification's words. *)
Definition visible_energy (emScale : ShowerModel) (d : MCNode)
  : R :=
  let p := particle d in
  if is_neutrino p then 0
  else match location_type p with
       | InIce =>
           match type p with
           | MuMinus | MuPlus | TauMinus | TauPlus => energy p
           | _ => energy p * emScale (type p) (energy p)
           end
       | _ => 0
       end.

(** The containment test of the builder in the specification's words: the
    explicit convex hull when one is supplied, the detector bounds extended
    by the margin otherwise. *)
Definition in_volume (ConvexHull : Type)
           (point_is_inside : ConvexHull -> R * R * R -> bool)
           (is_in_detector_bounds : I3Position -> R -> bool)
           (convex_hull : option ConvexHull) (extend_boundary : R)
           (p : I3Position) : bool :=
  match convex_hull with
  | Some hull => point_is_inside hull (px p, py p, pz p)
  | None => is_in_detector_bounds p extend_boundary
  end.

(** The sum of a list of reals. *)
Definition Rsum (l : list R) : R := fold_right Rplus 0 l.

(** The state of the loop after the candidates [seen]: the running maximum
    is the distance of the running extension, which is the farthest,
    last-visited candidate so far; before any candidate it is [0, None]. *)
Definition loop_state (vertex : I3Position) (seen : list I3Position)
           (max_distance : R) (max_extension : option I3Position) : Prop :=
  match max_extension with
  | None => seen = [] /\ max_distance = 0
  | Some e => max_distance = distance vertex e /\ farthest_last vertex seen e
  end.

(** What a recursive call on a daughter delivers. *)
Definition delivers (extension_of : MCNode -> outcome (option I3Position))
           (vertex : I3Position) (d : MCNode) : Prop :=
  exists e, extension_of d = Returns (Some e)
            /\ farthest_last vertex (endpoints d) e.

(** The cascade built from the located neutrino, its first daughter and
    the extension found. *)
Definition built_cascade (primary neutrino d0 : MCNode)
           (extension : I3Position) (deposited_energy : R) : I3Particle :=
  mkParticle (id (particle neutrino)) (type (particle neutrino))
             (pos (particle d0)) (dir (particle primary))
             (time (particle d0)) deposited_energy
             (Finite (distance (pos (particle d0)) extension))
             Cascade (location_type (particle neutrino)).

(** ** A worked event

    A muon neutrino primary travelling down whose interaction neutrino has
    three InIce daughters at the origin: a muon of 10 GeV with a track of
    4 m along z, a neutrino of 5 GeV and an electron of 3 GeV. *)

Definition origin : I3Position := mkPos 0 0 0.

Definition ex_muon : MCNode :=
  Node (mkParticle 3 MuMinus origin (mkDir 0 0 1) 0 10 (Finite 4)
                   ContainedTrack InIce) [].

Definition ex_nu_out : MCNode :=
  Node (mkParticle 4 NuMu origin (mkDir 1 0 0) 0 5 NaN Null InIce) [].

Definition ex_electron : MCNode :=
  Node (mkParticle 5 EMinus origin (mkDir 0 1 0) 0 3 NaN Cascade InIce) [].

Definition ex_neutrino : MCNode :=
  Node (mkParticle 2 NuMu (mkPos 0 0 100) (mkDir 1 0 0) 0 18 NaN Null InIce)
       [ex_muon; ex_nu_out; ex_electron].

Definition ex_primary : MCNode :=
  Node (mkParticle 1 NuMu (mkPos 0 0 1000) (mkDir 0 0 (-1)) 0 18 NaN
                   Primary Anywhere)
       [ex_neutrino].

Definition ex_frame : I3Frame := mkFrame [ex_primary].

(** Collaborators for the worked event: every point is inside, the
    interaction neutrino is [ex_neutrino], the em scale is 1. *)
Definition ex_point_is_inside (hull : unit) (p : R * R * R) : bool := true.

Definition ex_is_in_detector_bounds (p : I3Position) (margin : R) : bool :=
  true.

Definition ex_get_interaction_neutrino (frame : I3Frame) (primary : MCNode)
           (hull : option unit) (margin : R) (sanity_check : bool)
  : option MCNode := Some ex_neutrino.

Definition ex_no_interaction_neutrino (frame : I3Frame) (primary : MCNode)
           (hull : option unit) (margin : R) (sanity_check : bool)
  : option MCNode := None.

Definition ex_emScale : ShowerModel := fun t e => 1.

(** The cascade expected for the worked event. *)
Definition ex_cascade_particle : I3Particle :=
  mkParticle 2 NuMu origin (mkDir 0 0 (-1)) 0 (10 + 3) (Finite 4)
             Cascade InIce.

(** An interaction neutrino whose only daughter is a neutrino, and a helper
    that finds it. *)
Definition ex_invisible_neutrino : MCNode :=
  Node (mkParticle 8 NuMu (mkPos 0 0 100) (mkDir 1 0 0) 0 5 NaN Null InIce)
       [ex_nu_out].

Definition ex_get_invisible_neutrino (frame : I3Frame) (primary : MCNode)
           (hull : option unit) (margin : R) (sanity_check : bool)
  : option MCNode := Some ex_invisible_neutrino.


(** ** The code on binary64 floats

    The same functions over IEEE 754 binary64 numbers, the floats of the
    code: every coordinate, direction component, length and energy is a
    [float], arithmetic rounds as the machine does, and NaN compares false
    with everything.  This is the model for the properties in which a NaN
    or a rounded tie decides what the search returns. *)

Module F64.
Import Floats.
Local Open Scope float_scope.

Record I3Position : Type := mkPos { px : float; py : float; pz : float }.

Record I3Direction : Type := mkDir { dx : float; dy : float; dz : float }.

(** [a + b] on positions *)
Definition pos_add (a b : I3Position) : I3Position :=
  mkPos (px a + px b) (py a + py b) (pz a + pz b).

(** [a - b] on positions *)
Definition pos_sub (a b : I3Position) : I3Position :=
  mkPos (px a - px b) (py a - py b) (pz a - pz b).

(** [dir * length] *)
Definition dir_mul (d : I3Direction) (l : float) : I3Position :=
  mkPos (dx d * l) (dy d * l) (dz d * l).

(** [p.magnitude] *)
Definition magnitude (p : I3Position) : float :=
  sqrt (px p * px p + py p * py p + pz p * pz p).

Record I3Particle : Type := mkParticle {
  id : nat;
  type : ParticleType;
  pos : I3Position;
  dir : I3Direction;
  time : float;
  energy : float;
  length : float;
  shape : ParticleShape;
  location_type : LocationType
}.

(** [p.is_neutrino] *)
Definition is_neutrino (p : I3Particle) : bool :=
  match type p with
  | NuE | NuEBar | NuMu | NuMuBar | NuTau | NuTauBar => true
  | _ => false
  end.

Definition set_shape (p : I3Particle) (v : ParticleShape) : I3Particle :=
  mkParticle (id p) (type p) (pos p) (dir p) (time p) (energy p) (length p)
             v (location_type p).

Definition set_dir (p : I3Particle) (v : I3Direction) : I3Particle :=
  mkParticle (id p) (type p) (pos p) v (time p) (energy p) (length p)
             (shape p) (location_type p).

Definition set_pos (p : I3Particle) (v : I3Position) : I3Particle :=
  mkParticle (id p) (type p) v (dir p) (time p) (energy p) (length p)
             (shape p) (location_type p).

Definition set_time (p : I3Particle) (v : float) : I3Particle :=
  mkParticle (id p) (type p) (pos p) (dir p) v (energy p) (length p)
             (shape p) (location_type p).

Definition set_length (p : I3Particle) (v : float) : I3Particle :=
  mkParticle (id p) (type p) (pos p) (dir p) (time p) (energy p) v
             (shape p) (location_type p).

Definition set_energy (p : I3Particle) (v : float) : I3Particle :=
  mkParticle (id p) (type p) (pos p) (dir p) (time p) v (length p)
             (shape p) (location_type p).

Unset Elimination Schemes.
Inductive MCNode : Type :=
| Node (particle : I3Particle) (daughters : list MCNode).
Set Elimination Schemes.

Definition particle (n : MCNode) : I3Particle :=
  match n with Node p _ => p end.

Record I3Frame : Type := mkFrame { I3MCTree : list MCNode }.

(** [tree.get_daughters(particle)] *)
Definition get_daughters (tree : list MCNode) (n : MCNode) : list MCNode :=
  match n with Node _ ds => ds end.

(** [vertex - extension] where [extension] may be [None] *)
Definition sub_opt (vertex : I3Position) (extension : option I3Position)
  : outcome I3Position :=
  match extension with
  | Some e => Returns (pos_sub vertex e)
  | None => Raises TypeError
  end.

(** Lines 109-112: [np.isfinite(particle.length) and particle.length > 0]
    selects [particle.pos + particle.dir * particle.length]. *)
Definition particle_end_pos (p : I3Particle) : I3Position :=
  if is_finite (length p) && (0 <? length p)
  then pos_add (pos p) (dir_mul (dir p) (length p))
  else pos p.

Section ExtensionLoop.
(** The loop [for d in daughters] of lines 120-128; [dist >= max_distance]
    is the float comparison, false when either side is NaN. *)
Variable extension_of : MCNode -> outcome (option I3Position).
Variable vertex : I3Position.

Fixpoint extension_loop (daughters : list MCNode) (max_distance : float)
         (max_extension : option I3Position)
  : outcome (option I3Position) :=
  match daughters with
  | [] => Returns max_extension
  | d :: rest =>
      extension <- extension_of d ;;
      diff <- sub_opt vertex extension ;;
      let dist := magnitude diff in
      if max_distance <=? dist
      then extension_loop rest dist extension
      else extension_loop rest max_distance max_extension
  end.
End ExtensionLoop.

Fixpoint get_extension_from_vertex (frame : I3Frame) (particle : MCNode)
         (vertex : I3Position) (consider_particle_length : bool)
         {struct particle} : outcome (option I3Position) :=
  match particle with
  | Node p daughters =>
      let max_distance :=
        if consider_particle_length
        then magnitude (pos_sub vertex (particle_end_pos p))
        else 0 in
      let max_extension :=
        if consider_particle_length
        then Some (particle_end_pos p)
        else None in
      extension_loop
        (fun d => get_extension_from_vertex frame d vertex true)
        vertex daughters max_distance max_extension
  end.

Definition get_interaction_extension_length (frame : I3Frame)
           (primary : MCNode) : outcome float :=
  let tree := I3MCTree frame in
  let daughters := get_daughters tree primary in
  _ <- assert (0 <? List.length daughters)%nat
              "Expected at least 1 daughter" ;;
  match daughters with
  | [] => Raises IndexError
  | d0 :: _ =>
      let vertex := pos (particle d0) in
      extension <- get_extension_from_vertex frame primary vertex false ;;
      diff <- sub_opt vertex extension ;;
      Returns (magnitude diff)
  end.

Definition get_interaction_extension_pos (frame : I3Frame)
           (primary : MCNode) : outcome (option I3Position) :=
  let tree := I3MCTree frame in
  let daughters := get_daughters tree primary in
  _ <- assert (2 <=? List.length daughters)%nat
              "Expected at least 2 daughters" ;;
  match daughters with
  | [] => Raises IndexError
  | d0 :: _ =>
      let vertex := pos (particle d0) in
      get_extension_from_vertex frame primary vertex false
  end.

Section Cascade.
(** The external collaborators, as parameters. *)
Variable ConvexHull : Type.
Variable emScale : ParticleType -> float -> float.
Variable point_is_inside : ConvexHull -> float * float * float -> bool.
Variable is_in_detector_bounds : I3Position -> float -> bool.
Variable get_interaction_neutrino :
  I3Frame -> MCNode -> option ConvexHull -> float -> bool -> option MCNode.

Definition get_cascade_em_equivalent (cascade : I3Particle) : float :=
  let em_scale := emScale (type cascade) (energy cascade) in
  energy cascade * em_scale.

(** One turn of the loop of lines 270-300 on the running sum. *)
Definition add_daughter_energy (deposited_energy : float) (d : MCNode)
  : float :=
  let p := particle d in
  if is_neutrino p then deposited_energy
  else if negb (LocationType_beq (location_type p) InIce)
  then deposited_energy
  else if is_mu_or_tau (type p)
  then deposited_energy + energy p
  else deposited_energy + get_cascade_em_equivalent p.

Definition get_cascade_of_primary_nu (frame : I3Frame) (primary : MCNode)
           (convex_hull : option ConvexHull) (extend_boundary : float)
           (sanity_check : bool) : outcome (option I3Particle) :=
  match get_interaction_neutrino frame primary convex_hull
                                 extend_boundary sanity_check with
  | None => Returns None
  | Some neutrino =>
      if negb (is_neutrino (particle neutrino)) then Returns None
      else
        let mctree := I3MCTree frame in
        let daughters := get_daughters mctree neutrino in
        _ <- assert (0 <? List.length daughters)%nat
                    "Expected at least one daughter!" ;;
        match daughters with
        | [] => Raises IndexError
        | d0 :: _ =>
            let point_inside :=
              match convex_hull with
              | None =>
                  is_in_detector_bounds (pos (particle d0)) extend_boundary
              | Some hull =>
                  point_is_inside hull (px (pos (particle d0)),
                                        py (pos (particle d0)),
                                        pz (pos (particle d0)))
              end in
            _ <- assert point_inside
                   "Expected interaction to be inside defined volume!" ;;
            let cascade := particle neutrino in
            let cascade := set_shape cascade Cascade in
            let cascade := set_dir cascade (dir (particle primary)) in
            let cascade := set_pos cascade (pos (particle d0)) in
            let cascade := set_time cascade (time (particle d0)) in
            extension_length <-
              get_interaction_extension_length frame neutrino ;;
            let cascade := set_length cascade extension_length in
            let deposited_energy :=
              fold_left add_daughter_energy daughters 0 in
            let cascade := set_energy cascade deposited_energy in
            Returns (Some cascade)
        end
  end.
End Cascade.

(** *** The claims' vocabulary on floats *)

(** The distance of a point to the vertex as the code computes it. *)
Definition distance (vertex c : I3Position) : float :=
  sqrt ((px vertex - px c) * (px vertex - px c)
        + (py vertex - py c) * (py vertex - py c)
        + (pz vertex - pz c) * (pz vertex - pz c)).

(** A particle's endpoint: position plus direction times length when the
    length is finite and strictly positive, the raw position otherwise. *)
Definition endpoint (p : I3Particle) : I3Position :=
  if is_finite (length p) && (0 <? length p)
  then mkPos (px (pos p) + dx (dir p) * length p)
             (py (pos p) + dy (dir p) * length p)
             (pz (pos p) + dz (dir p) * length p)
  else pos p.

(** Endpoints of a particle and its descendants, depth first. *)
Fixpoint endpoints (n : MCNode) : list I3Position :=
  match n with
  | Node p ds => endpoint p :: flat_map endpoints ds
  end.

(** The candidates of a search. *)
Definition candidates (n : MCNode) (consider_particle_length : bool)
  : list I3Position :=
  match n with
  | Node p ds =>
      (if consider_particle_length then [endpoint p] else [])
        ++ flat_map endpoints ds
  end.

(** The distance of a candidate is a number, not NaN. *)
Definition comparable (vertex c : I3Position) : Prop :=
  is_nan (distance vertex c) = false.

(** [e] is the farthest candidate of [l] and the last visited at that
    distance, in the comparisons of the code: no candidate before it is
    farther ([<=] holds), every candidate after it is strictly nearer. *)
Definition farthest_last (vertex : I3Position) (l : list I3Position)
           (e : I3Position) : Prop :=
  exists before after,
    l = before ++ e :: after
    /\ Forall (fun c => (distance vertex c <=? distance vertex e) = true)
              before
    /\ Forall (fun c => (distance vertex c <? distance vertex e) = true)
              after.

(** The state of the loop after the candidates [seen]. *)
Definition loop_state (vertex : I3Position) (seen : list I3Position)
           (max_distance : float) (max_extension : option I3Position)
  : Prop :=
  match max_extension with
  | None => seen = [] /\ max_distance = 0
  | Some e => max_distance = distance vertex e /\ farthest_last vertex seen e
  end.

(** The default search of a daughter returns [e]. *)
Definition found (frame : I3Frame) (vertex : I3Position) (d : MCNode)
           (e : I3Position) : Prop :=
  get_extension_from_vertex frame d vertex true = Returns (Some e).

(** The containment test of the builder: the explicit convex hull when
    one is supplied, the detector bounds extended by the margin
    otherwise. *)
Definition in_volume (ConvexHull : Type)
           (point_is_inside : ConvexHull -> float * float * float -> bool)
           (is_in_detector_bounds : I3Position -> float -> bool)
           (convex_hull : option ConvexHull) (extend_boundary : float)
           (p : I3Position) : bool :=
  match convex_hull with
  | Some hull => point_is_inside hull (px p, py p, pz p)
  | None => is_in_detector_bounds p extend_boundary
  end.

(** The cascade built from the located neutrino, its first daughter, the
    extension length and the summed energy. *)
Definition built_cascade (primary neutrino d0 : MCNode)
           (extension_length deposited_energy : float) : I3Particle :=
  mkParticle (id (particle neutrino)) (type (particle neutrino))
             (pos (particle d0)) (dir (particle primary))
             (time (particle d0)) deposited_energy extension_length
             Cascade (location_type (particle neutrino)).

(** *** Events on floats *)

Definition origin : I3Position := mkPos 0 0 0.

Definition leaf (n : nat) (t : ParticleType) (p : I3Position) : MCNode :=
  Node (mkParticle n t p (mkDir 0 0 1) 0 1 nan Cascade InIce) [].

(** A neutrino whose only daughter sits at a NaN position. *)
Definition nan_daughter : MCNode := leaf 2 EMinus (mkPos nan 0 0).

Definition nan_event : MCNode :=
  Node (mkParticle 1 NuMu origin (mkDir 0 0 1) 0 1 nan Null InIce)
       [nan_daughter].

(** A particle at a NaN position with an electron 5 m from the origin. *)
Definition far_electron : MCNode := leaf 2 EMinus (mkPos 0 0 5).

Definition nan_parent_event : MCNode :=
  Node (mkParticle 1 NuMu (mkPos nan 0 0) (mkDir 0 0 1) 0 1 nan Null InIce)
       [far_electron].

(** A rounded tie: a track of length 1 starting at x = 2^-53, whose end
    rounds to x = 1, between two point-like particles, the later of which
    sits at distance 1 on the y axis. *)
Definition tie_near : MCNode := leaf 2 Gamma (mkPos 0 0 0.5).

Definition tie_track : MCNode :=
  Node (mkParticle 3 MuMinus (mkPos 0x1p-53 0 0) (mkDir 1 0 0) 0 1 1
                   ContainedTrack InIce) [].

Definition tie_leaf : MCNode := leaf 4 EMinus (mkPos 0 1 0).

Definition tie_last : MCNode := leaf 5 EMinus (mkPos 0 0 0.25).

Definition tie_event : MCNode :=
  Node (mkParticle 1 NuMu origin (mkDir 0 0 1) 0 1 nan Null InIce)
       [tie_near; tie_track; tie_leaf; tie_last].

Definition single_event : MCNode :=
  Node (mkParticle 1 NuMu origin (mkDir 0 0 1) 0 1 nan Null InIce)
       [tie_track].

(** A neutrino whose only daughter is a track of length 1 with a NaN
    direction, starting at the origin. *)
Definition nan_direction_event : MCNode :=
  Node (mkParticle 1 NuMu origin (mkDir 0 0 1) 0 1 nan Null InIce)
       [Node (mkParticle 2 MuMinus origin (mkDir nan 0 1) 0 1 1
                         ContainedTrack InIce) []].

(** Collaborators for the events: every point is inside, the scale is 1,
    and the helper finds the given neutrino. *)
Definition everywhere_inside (hull : unit) (p : float * float * float)
  : bool := true.

Definition everywhere_in_bounds (p : I3Position) (margin : float) : bool :=
  true.

Definition unit_scale (t : ParticleType) (e : float) : float := 1.

Definition finds (n : MCNode) (frame : I3Frame) (primary : MCNode)
           (hull : option unit) (margin : float) (sanity_check : bool)
  : option MCNode := Some n.

Definition frame0 : I3Frame := mkFrame [].

(** Induction on the particle tree. *)
Section MCNodeInd.
Variable P : MCNode -> Prop.
Hypothesis P_Node : forall p ds, Forall P ds -> P (Node p ds).

Fixpoint MCNode_ind (n : MCNode) : P n :=
  match n with
  | Node p ds =>
      @P_Node p ds
        ((fix all (l : list MCNode) : Forall P l :=
            match l with
            | [] => Forall_nil P
            | d :: rest => Forall_cons d (MCNode_ind d) (all rest)
            end) ds)
  end.
End MCNodeInd.
End F64.

Unset Implicit Arguments.

(** ** Induction on the particle tree *)

Section MCNodeInd.
Variable P : MCNode -> Prop.
Hypothesis P_Node : forall p ds, Forall P ds -> P (Node p ds).

Fixpoint MCNode_ind (n : MCNode) : P n :=
  match n with
  | Node p ds =>
      P_Node p ds
        ((fix all (l : list MCNode) : Forall P l :=
            match l with
            | [] => Forall_nil P
            | d :: rest => Forall_cons d (MCNode_ind d) (all rest)
            end) ds)
  end.
End MCNodeInd.

(** ** Distances and endpoints *)

Lemma magnitude_sub_distance (vertex c : I3Position) :
  magnitude (pos_sub vertex c) = distance vertex c.
Proof. reflexivity. Qed.

Lemma distance_nonneg (vertex c : I3Position) : 0 <= distance vertex c.
Proof. unfold distance. apply sqrt_pos. Qed.

Lemma particle_end_pos_endpoint (p : I3Particle) :
  particle_end_pos p = endpoint p.
Proof.
  unfold particle_end_pos, endpoint, isfinite, float_gt.
  destruct (length p) as [l| | |]; simpl; try reflexivity.
  destruct (Rgt_dec l 0) as [Hgt|Hngt], (Rlt_dec 0 l) as [Hlt|Hnlt];
    try reflexivity; exfalso; unfold Rgt in *; lra.
Qed.

(** ** The farthest, last-visited candidate *)

Lemma farthest_last_bound vertex l e :
  farthest_last vertex l e ->
  Forall (fun c => distance vertex c <= distance vertex e) l.
Proof.
  intros (before & after & -> & Hb & Ha).
  apply Forall_app; split; [exact Hb|].
  constructor; [lra|].
  eapply Forall_impl; [|exact Ha]. simpl; intros; lra.
Qed.

Lemma farthest_last_In vertex l e : farthest_last vertex l e -> In e l.
Proof.
  intros (before & after & -> & _). apply in_or_app; right; left; reflexivity.
Qed.

(** A later group of candidates whose best is at least as far takes over. *)
Lemma farthest_last_app_r vertex l1 l2 e :
  Forall (fun c => distance vertex c <= distance vertex e) l1 ->
  farthest_last vertex l2 e ->
  farthest_last vertex (l1 ++ l2) e.
Proof.
  intros H1 (before & after & -> & Hb & Ha).
  exists (l1 ++ before), after. split; [now rewrite app_assoc|].
  split; [apply Forall_app; split; assumption | exact Ha].
Qed.

(** A later group of strictly nearer candidates changes nothing. *)
Lemma farthest_last_app_l vertex l1 l2 e :
  farthest_last vertex l1 e ->
  Forall (fun c => distance vertex c < distance vertex e) l2 ->
  farthest_last vertex (l1 ++ l2) e.
Proof.
  intros (before & after & -> & Hb & Ha) H2.
  exists before, (after ++ l2). split.
  - now rewrite <- app_assoc.
  - split; [exact Hb | apply Forall_app; split; assumption].
Qed.

Lemma farthest_last_singleton vertex e : farthest_last vertex [e] e.
Proof. exists [], []. repeat split; constructor. Qed.

Lemma loop_state_step vertex seen md me l e :
  loop_state vertex seen md me ->
  farthest_last vertex l e ->
  if Rge_dec (distance vertex e) md
  then loop_state vertex (seen ++ l) (distance vertex e) (Some e)
  else loop_state vertex (seen ++ l) md me.
Proof.
  intros Hst Hl.
  destruct (Rge_dec (distance vertex e) md) as [Hge|Hlt].
  - split; [reflexivity|].
    apply farthest_last_app_r; [|exact Hl].
    destruct me as [e1|]; simpl in Hst.
    + destruct Hst as [-> Hseen].
      eapply Forall_impl; [|apply (farthest_last_bound _ _ _ Hseen)].
      simpl; intros; lra.
    + destruct Hst as [-> _]. constructor.
  - destruct me as [e1|]; simpl in Hst.
    + destruct Hst as [-> Hseen]. split; [reflexivity|].
      apply farthest_last_app_l; [exact Hseen|].
      eapply Forall_impl; [|apply (farthest_last_bound _ _ _ Hl)].
      simpl; intros; lra.
    + destruct Hst as [_ ->].
      exfalso. apply Hlt. apply Rle_ge, distance_nonneg.
Qed.

Lemma extension_loop_spec extension_of vertex daughters :
  Forall (delivers extension_of vertex) daughters ->
  forall seen md me,
    loop_state vertex seen md me ->
    exists md' r,
      extension_loop extension_of vertex daughters md me = Returns r
      /\ loop_state vertex (seen ++ flat_map endpoints daughters) md' r.
Proof.
  induction 1 as [|d rest (e & Hd & He) _ IH]; intros seen md me Hst.
  - exists md, me. simpl. rewrite app_nil_r. split; [reflexivity|exact Hst].
  - simpl. rewrite Hd. simpl. rewrite magnitude_sub_distance.
    pose proof (loop_state_step _ _ _ _ _ _ Hst He) as Hstep.
    rewrite app_assoc.
    destruct (Rge_dec (distance vertex e) md); apply IH; exact Hstep.
Qed.

Lemma loop_state_result vertex seen md r :
  loop_state vertex seen md r -> search_result vertex seen r.
Proof. destruct r; simpl; intuition. Qed.

(** With the particle's own length considered, the search always delivers
    an endpoint of the subtree. *)
Lemma get_extension_from_vertex_delivers frame vertex (n : MCNode) :
  delivers (fun d => get_extension_from_vertex frame d vertex true) vertex n.
Proof.
  induction n as [p ds IH] using MCNode_ind.
  unfold delivers. simpl.
  destruct (extension_loop_spec _ vertex ds IH [endpoint p]
              (magnitude (pos_sub vertex (particle_end_pos p)))
              (Some (particle_end_pos p))) as (md' & r & Hr & Hst).
  - rewrite particle_end_pos_endpoint. split; [reflexivity|].
    apply farthest_last_singleton.
  - rewrite Hr. destruct r as [e|].
    + exists e. split; [reflexivity|]. apply Hst.
    + destruct Hst as [Hnil _]. discriminate Hnil.
Qed.

Lemma get_extension_from_vertex_spec frame (n : MCNode) vertex flag :
  exists r,
    get_extension_from_vertex frame n vertex flag = Returns r
    /\ search_result vertex (candidates n flag) r.
Proof.
  destruct n as [p ds].
  assert (Hds : Forall (delivers
            (fun d => get_extension_from_vertex frame d vertex true) vertex) ds).
  { apply Forall_forall. intros d _.
    apply get_extension_from_vertex_delivers. }
  simpl. destruct flag.
  - destruct (extension_loop_spec _ vertex ds Hds [endpoint p]
                (magnitude (pos_sub vertex (particle_end_pos p)))
                (Some (particle_end_pos p))) as (md' & r & Hr & Hst).
    + rewrite particle_end_pos_endpoint. split; [reflexivity|].
      apply farthest_last_singleton.
    + exists r. split; [exact Hr|]. eapply loop_state_result, Hst.
  - destruct (extension_loop_spec _ vertex ds Hds [] 0 None)
      as (md' & r & Hr & Hst).
    + split; reflexivity.
    + exists r. split; [exact Hr|]. eapply loop_state_result, Hst.
Qed.

(** ** The search on a particle with and without daughters *)

Lemma endpoints_nonempty (n : MCNode) : endpoints n <> [].
Proof. destruct n; discriminate. Qed.

Lemma get_extension_from_vertex_daughters frame (n : MCNode) vertex d rest :
  get_daughters (I3MCTree frame) n = d :: rest ->
  exists e,
    get_extension_from_vertex frame n vertex false = Returns (Some e)
    /\ farthest_last vertex (candidates n false) e.
Proof.
  intros Hds.
  destruct (get_extension_from_vertex_spec frame n vertex false)
    as (r & Hr & Hres).
  destruct r as [e|].
  - exists e. split; assumption.
  - exfalso. destruct n as [p ds]. simpl in Hds, Hres. subst ds.
    simpl in Hres. apply app_eq_nil in Hres.
    exact (endpoints_nonempty d (proj1 Hres)).
Qed.

Lemma get_interaction_extension_length_daughters frame (n : MCNode) d rest :
  get_daughters (I3MCTree frame) n = d :: rest ->
  exists e,
    get_extension_from_vertex frame n (pos (particle d)) false
    = Returns (Some e)
    /\ farthest_last (pos (particle d)) (candidates n false) e
    /\ get_interaction_extension_length frame n
       = Returns (distance (pos (particle d)) e).
Proof.
  intros Hds.
  destruct (get_extension_from_vertex_daughters frame n (pos (particle d))
              d rest Hds) as (e & He & Hfar).
  exists e. split; [exact He|]. split; [exact Hfar|].
  unfold get_interaction_extension_length. rewrite Hds. simpl.
  rewrite He. reflexivity.
Qed.

(** ** Claims on the extension finder *)

(** C6. For every particle with zero daughters, the search with
    [consider_particle_length=False] yields [None]: it starts from no
    candidate at distance 0 and nothing is ever selected. *)
Theorem get_extension_from_vertex_no_daughters_none :
  forall (frame : I3Frame) (particle : MCNode) (vertex : I3Position),
    get_daughters (I3MCTree frame) particle = [] ->
    get_extension_from_vertex frame particle vertex false = Returns None.
Proof.
  intros frame [p ds] vertex Hds. simpl in Hds. subst ds. reflexivity.
Qed.

(** ** The cascade of a primary neutrino *)

Section CascadeProperties.
Variable ConvexHull : Type.
Variable emScale : ShowerModel.
Variable point_is_inside : ConvexHull -> R * R * R -> bool.
Variable is_in_detector_bounds : I3Position -> R -> bool.
Variable get_interaction_neutrino :
  I3Frame -> MCNode -> option ConvexHull -> R -> bool -> option MCNode.

Local Abbreviation cascade_of :=
  (get_cascade_of_primary_nu emScale point_is_inside is_in_detector_bounds
                             get_interaction_neutrino).
Local Abbreviation inside :=
  (in_volume point_is_inside is_in_detector_bounds).

(** One turn of the energy loop adds the daughter's visible energy. *)
Lemma add_daughter_energy_visible (acc : R) (d : MCNode) :
  add_daughter_energy emScale acc d = acc + visible_energy emScale d.
Proof.
  unfold add_daughter_energy, visible_energy, get_cascade_em_equivalent,
    is_neutrino, is_mu_or_tau.
  destruct (type (particle d)), (location_type (particle d));
    simpl; lra.
Qed.

Lemma fold_add_daughter_energy (ds : list MCNode) (acc : R) :
  fold_left (add_daughter_energy emScale) ds acc
  = acc + Rsum (map (visible_energy emScale) ds).
Proof.
  revert acc. induction ds as [|d ds IH]; intros acc; simpl.
  - lra.
  - rewrite IH, add_daughter_energy_visible. lra.
Qed.

(** The run of the builder on a located neutrino with a first daughter
    inside the volume. *)
Lemma cascade_of_located frame primary hull eb sc neutrino d0 rest :
  get_interaction_neutrino frame primary hull eb sc = Some neutrino ->
  is_neutrino (particle neutrino) = true ->
  get_daughters (I3MCTree frame) neutrino = d0 :: rest ->
  inside hull eb (pos (particle d0)) = true ->
  exists extension,
    get_extension_from_vertex frame neutrino (pos (particle d0)) false
    = Returns (Some extension)
    /\ farthest_last (pos (particle d0)) (candidates neutrino false)
                     extension
    /\ cascade_of frame primary hull eb sc
       = Returns (Some (built_cascade primary neutrino d0 extension
                          (Rsum (map (visible_energy emScale)
                                     (d0 :: rest))))).
Proof.
  intros Hnu Hisnu Hds Hin.
  destruct (get_interaction_extension_length_daughters
              frame neutrino d0 rest Hds) as (e & He & Hfar & Hlen).
  exists e. split; [exact He|]. split; [exact Hfar|].
  unfold get_cascade_of_primary_nu.
  rewrite Hnu, Hisnu, Hds. simpl negb. cbv iota.
  unfold in_volume in Hin.
  change (0 <? List.length (d0 :: rest))%nat with true.
  unfold assert at 1. unfold bind at 1.
  destruct hull as [h|]; rewrite Hin; unfold assert, bind at 1;
    rewrite Hlen; unfold bind;
    rewrite fold_add_daughter_energy, Rplus_0_l; reflexivity.
Qed.

(** The runs of the builder, case by case. *)
Lemma cascade_of_cases frame primary hull eb sc :
  match get_interaction_neutrino frame primary hull eb sc with
  | None => cascade_of frame primary hull eb sc = Returns None
  | Some neutrino =>
      if is_neutrino (particle neutrino) then
        match get_daughters (I3MCTree frame) neutrino with
        | [] =>
            cascade_of frame primary hull eb sc
            = Raises (AssertionError "Expected at least one daughter!")
        | d0 :: rest =>
            if inside hull eb (pos (particle d0)) then
              exists extension,
                get_extension_from_vertex frame neutrino
                  (pos (particle d0)) false = Returns (Some extension)
                /\ farthest_last (pos (particle d0))
                     (candidates neutrino false) extension
                /\ cascade_of frame primary hull eb sc
                   = Returns
                       (Some (built_cascade primary neutrino d0 extension
                                (Rsum (map (visible_energy emScale)
                                           (d0 :: rest)))))
            else
              cascade_of frame primary hull eb sc
              = Raises (AssertionError
                   "Expected interaction to be inside defined volume!")
        end
      else cascade_of frame primary hull eb sc = Returns None
  end.
Proof.
  destruct (get_interaction_neutrino frame primary hull eb sc)
    as [neutrino|] eqn:Hnu.
  2:{ unfold get_cascade_of_primary_nu. rewrite Hnu. reflexivity. }
  destruct (is_neutrino (particle neutrino)) eqn:Hisnu.
  2:{ unfold get_cascade_of_primary_nu. rewrite Hnu, Hisnu. reflexivity. }
  destruct (get_daughters (I3MCTree frame) neutrino) as [|d0 rest] eqn:Hds.
  { unfold get_cascade_of_primary_nu. rewrite Hnu, Hisnu, Hds.
    reflexivity. }
  destruct (inside hull eb (pos (particle d0))) eqn:Hin.
  - eapply cascade_of_located; eassumption.
  - unfold get_cascade_of_primary_nu. rewrite Hnu, Hisnu, Hds.
    unfold in_volume in Hin. simpl negb. cbv iota.
    change (0 <? List.length (d0 :: rest))%nat with true.
    unfold assert at 1. unfold bind at 1.
    destruct hull as [h|]; rewrite Hin; reflexivity.
Qed.

(** C2. When a cascade is synthesized, its energy is the sum, over the
    direct daughters of the located neutrino, of: nothing for a neutrino
    daughter, nothing for a daughter that is not InIce, the raw energy of
    a muon, antimuon, tau or antitau, and the EM-equivalent energy (raw
    energy times the em scale) otherwise.  In particular, for daughters
    [muon(E=10), neutrino(E=5), electron(E=3)], all InIce, the energy is
    10 + em_equivalent(electron, 3). *)
Theorem cascade_energy_is_visible_energy_sum :
  forall (frame : I3Frame) (primary : MCNode)
         (convex_hull : option ConvexHull) (extend_boundary : R)
         (sanity_check : bool) (neutrino : MCNode) (cascade : I3Particle),
    get_interaction_neutrino frame primary convex_hull extend_boundary
                             sanity_check = Some neutrino ->
    cascade_of frame primary convex_hull extend_boundary sanity_check
    = Returns (Some cascade) ->
    energy cascade
    = Rsum (map (visible_energy emScale)
                (get_daughters (I3MCTree frame) neutrino))
    /\ forall mu nu e : MCNode,
        get_daughters (I3MCTree frame) neutrino = [mu; nu; e] ->
        type (particle mu) = MuMinus -> energy (particle mu) = 10 ->
        is_neutrino (particle nu) = true -> energy (particle nu) = 5 ->
        type (particle e) = EMinus -> energy (particle e) = 3 ->
        location_type (particle mu) = InIce ->
        location_type (particle nu) = InIce ->
        location_type (particle e) = InIce ->
        energy cascade
        = 10 + get_cascade_em_equivalent emScale (particle e)
          /\ get_cascade_em_equivalent emScale (particle e)
             = 3 * emScale EMinus 3.
Proof.
  intros frame primary hull eb sc neutrino cascade Hnu Hc.
  pose proof (cascade_of_cases frame primary hull eb sc) as Hcases.
  rewrite Hnu in Hcases.
  destruct (is_neutrino (particle neutrino)); [|congruence].
  destruct (get_daughters (I3MCTree frame) neutrino) as [|d0 rest] eqn:Hds;
    [congruence|].
  destruct (inside hull eb (pos (particle d0))); [|congruence].
  destruct Hcases as (ext & _ & _ & Heq).
  rewrite Heq in Hc. injection Hc as <-.
  split; [reflexivity|].
  intros mu nu e Hl Htmu Hemu Hnu' Henu Hte Hee Hlmu Hlnu Hle.
  injection Hl as -> ->.
  unfold built_cascade, energy at 1, Rsum, map, fold_right, visible_energy,
    get_cascade_em_equivalent.
  rewrite Hnu', Hlmu, Hle, Htmu, Hemu, Hte, Hee.
  unfold is_neutrino. rewrite Htmu, Hte. split; lra.
Qed.


(** C4. The builder returns [None], raising nothing and building no
    cascade, whenever the identification helper finds no interaction
    neutrino and whenever the particle it returns is not a neutrino. *)
Theorem cascade_none_without_interaction_neutrino :
  forall (frame : I3Frame) (primary : MCNode)
         (convex_hull : option ConvexHull) (extend_boundary : R)
         (sanity_check : bool),
    (get_interaction_neutrino frame primary convex_hull extend_boundary
                              sanity_check = None
     \/ exists found,
         get_interaction_neutrino frame primary convex_hull
                                  extend_boundary sanity_check = Some found
         /\ is_neutrino (particle found) = false) ->
    cascade_of frame primary convex_hull extend_boundary sanity_check
    = Returns None.
Proof.
  intros frame primary hull eb sc H.
  pose proof (cascade_of_cases frame primary hull eb sc) as Hcases.
  destruct H as [Hnone | (found & Hsome & Hnot)].
  - rewrite Hnone in Hcases. exact Hcases.
  - rewrite Hsome, Hnot in Hcases. exact Hcases.
Qed.


(** C7. [get_cascade_energy_deposited] returns the cascade's full
    EM-equivalent energy (raw energy times the em scale) when the
    cascade's position is inside the volume, and exactly 0 otherwise. *)
Theorem cascade_energy_deposited_all_or_nothing :
  forall (frame : I3Frame) (convex_hull : ConvexHull)
         (cascade : I3Particle),
    get_cascade_energy_deposited emScale point_is_inside frame convex_hull
                                 cascade
    = if point_is_inside convex_hull
           (px (pos cascade), py (pos cascade), pz (pos cascade))
      then energy cascade * emScale (type cascade) (energy cascade)
      else 0.
Proof. intros frame hull cascade. reflexivity. Qed.
End CascadeProperties.

(** ** The energy-equivalence model *)



(** ** The worked event *)

Lemma distance_origin_origin : distance origin origin = 0.
Proof.
  unfold distance, origin. simpl.
  replace ((0 - 0) * (0 - 0) + (0 - 0) * (0 - 0) + (0 - 0) * (0 - 0))
    with 0 by ring.
  apply sqrt_0.
Qed.

Lemma ex_muon_end_pos :
  particle_end_pos (particle ex_muon) = mkPos (0 + 0 * 4) (0 + 0 * 4) (0 + 1 * 4).
Proof.
  rewrite particle_end_pos_endpoint. unfold endpoint. simpl.
  destruct (Rlt_dec 0 4) as [_|H]; [reflexivity | exfalso; lra].
Qed.

Lemma distance_origin_muon_end :
  distance origin (mkPos (0 + 0 * 4) (0 + 0 * 4) (0 + 1 * 4)) = 4.
Proof.
  unfold distance, origin. simpl.
  replace ((0 - (0 + 0 * 4)) * (0 - (0 + 0 * 4))
           + (0 - (0 + 0 * 4)) * (0 - (0 + 0 * 4))
           + (0 - (0 + 1 * 4)) * (0 - (0 + 1 * 4)))
    with (4 * 4) by ring.
  apply sqrt_square. lra.
Qed.

(** The search of the worked event: the muon's track end, 4 m from the
    vertex, beats the two point-like daughters at distance 0. *)
Example ex_neutrino_extension :
  get_extension_from_vertex ex_frame ex_neutrino origin false
  = Returns (Some (mkPos (0 + 0 * 4) (0 + 0 * 4) (0 + 1 * 4))).
Proof.
  cbn -[Rge_dec magnitude particle_end_pos pos_sub].
  pose proof ex_muon_end_pos as Hmuon.
  cbn -[particle_end_pos] in Hmuon. rewrite !Hmuon. clear Hmuon.
  cbn -[Rge_dec magnitude pos_sub].
  rewrite !magnitude_sub_distance.
  rewrite distance_origin_muon_end, distance_origin_origin.
  destruct (Rge_dec 4 0) as [_|H]; [|exfalso; lra].
  destruct (Rge_dec 0 4) as [H|_]; [exfalso; lra|].
  reflexivity.
Qed.

(** With its own length considered the electron, a leaf, is its own
    extension; without it there is no candidate at all. *)
Example ex_electron_extension :
  get_extension_from_vertex ex_frame ex_electron origin true
  = Returns (Some origin)
  /\ get_extension_from_vertex ex_frame ex_electron origin false
     = Returns None.
Proof. split; reflexivity. Qed.

(** The cascade of the worked event. *)
Example ex_cascade :
  get_cascade_of_primary_nu ex_emScale ex_point_is_inside
    ex_is_in_detector_bounds ex_get_interaction_neutrino
    ex_frame ex_primary None 200 false
  = Returns (Some ex_cascade_particle).
Proof.
  unfold get_cascade_of_primary_nu, get_interaction_extension_length.
  cbn -[get_extension_from_vertex magnitude pos_sub Rplus Rmult].
  change (pos (particle ex_muon)) with origin.
  rewrite ex_neutrino_extension.
  cbn -[magnitude pos_sub Rplus Rmult].
  rewrite magnitude_sub_distance, distance_origin_muon_end.
  unfold set_energy, set_length, set_time, set_pos, set_dir, set_shape.
  cbn -[Rplus Rmult].
  unfold get_cascade_em_equivalent, ex_emScale. cbn -[Rplus Rmult].
  replace (0 + 10 + 3 * 1) with (10 + 3) by ring.
  reflexivity.
Qed.

(** ** The claims on the worked event *)

(** C6 on the electron, a leaf. *)
Lemma get_extension_from_vertex_no_daughters_none_witness :
  get_extension_from_vertex ex_frame ex_electron origin false = Returns None.
Proof.
  apply (get_extension_from_vertex_no_daughters_none
           ex_frame ex_electron origin).
  reflexivity.
Defined.

(** C2 on the worked event: 10 GeV of the muon, nothing of the neutrino,
    the EM-equivalent energy of the electron. *)
Lemma cascade_energy_is_visible_energy_sum_witness :
  energy ex_cascade_particle
  = Rsum (map (visible_energy ex_emScale)
              (get_daughters (I3MCTree ex_frame) ex_neutrino))
  /\ energy ex_cascade_particle
     = 10 + get_cascade_em_equivalent ex_emScale (particle ex_electron).
Proof.
  destruct (cascade_energy_is_visible_energy_sum
              unit ex_emScale ex_point_is_inside ex_is_in_detector_bounds
              ex_get_interaction_neutrino ex_frame ex_primary None 200 false
              ex_neutrino ex_cascade_particle eq_refl ex_cascade)
    as [Hsum Hexample].
  split; [exact Hsum|].
  apply (Hexample ex_muon ex_nu_out ex_electron); reflexivity.
Defined.


(** C4 when the helper finds no interaction neutrino. *)
Lemma cascade_none_without_interaction_neutrino_witness :
  get_cascade_of_primary_nu ex_emScale ex_point_is_inside
    ex_is_in_detector_bounds ex_no_interaction_neutrino
    ex_frame ex_primary None 200 false
  = Returns None.
Proof.
  apply (cascade_none_without_interaction_neutrino
           unit ex_emScale ex_point_is_inside ex_is_in_detector_bounds
           ex_no_interaction_neutrino).
  left. reflexivity.
Defined.


(** ** Further properties of the extension finder *)



(** X1. With the particle's own length considered (the default), the
    search never returns [None] and raises nothing: it returns an endpoint
    of the particle or of one of its descendants. *)
Theorem get_extension_from_vertex_self_some :
  forall (frame : I3Frame) (particle : MCNode) (vertex : I3Position),
  exists e,
    get_extension_from_vertex frame particle vertex true = Returns (Some e)
    /\ In e (endpoints particle).
Proof.
  intros frame n vertex.
  destruct (get_extension_from_vertex_delivers frame vertex n)
    as (e & He & Hfar).
  exists e. split; [exact He|]. eapply farthest_last_In, Hfar.
Qed.



(** X6. The two interaction helpers agree: whenever
    [get_interaction_extension_pos] returns a position,
    [get_interaction_extension_length] returns the distance of that
    position from the first daughter's vertex. *)
Theorem get_interaction_extension_length_of_pos :
  forall (frame : I3Frame) (primary : MCNode) (e : I3Position),
    get_interaction_extension_pos frame primary = Returns (Some e) ->
    exists d rest,
      get_daughters (I3MCTree frame) primary = d :: rest
      /\ get_interaction_extension_length frame primary
         = Returns (magnitude (pos_sub (pos (particle d)) e)).
Proof.
  intros frame primary e Hpos.
  unfold get_interaction_extension_pos in Hpos.
  destruct (get_daughters (I3MCTree frame) primary) as [|d rest] eqn:Hds;
    [discriminate Hpos|].
  exists d, rest. split; [reflexivity|].
  destruct (2 <=? List.length (d :: rest))%nat; [|discriminate Hpos].
  simpl in Hpos.
  unfold get_interaction_extension_length. rewrite Hds. simpl.
  rewrite Hpos. reflexivity.
Qed.

(** ** Further properties of the cascade builder *)

Section CascadeBuilderProperties.
Variable ConvexHull : Type.
Variable emScale : ShowerModel.
Variable point_is_inside : ConvexHull -> R * R * R -> bool.
Variable is_in_detector_bounds : I3Position -> R -> bool.
Variable get_interaction_neutrino :
  I3Frame -> MCNode -> option ConvexHull -> R -> bool -> option MCNode.

Local Abbreviation cascade_of :=
  (get_cascade_of_primary_nu emScale point_is_inside is_in_detector_bounds
                             get_interaction_neutrino).

(** What a returned cascade is made of. *)
Lemma cascade_of_returned frame primary hull eb sc cascade :
  cascade_of frame primary hull eb sc = Returns (Some cascade) ->
  exists neutrino d0 rest extension,
    get_interaction_neutrino frame primary hull eb sc = Some neutrino
    /\ get_daughters (I3MCTree frame) neutrino = d0 :: rest
    /\ in_volume point_is_inside is_in_detector_bounds hull eb
                 (pos (particle d0)) = true
    /\ farthest_last (pos (particle d0)) (flat_map endpoints (d0 :: rest))
                     extension
    /\ cascade = built_cascade primary neutrino d0 extension
                   (Rsum (map (visible_energy emScale) (d0 :: rest))).
Proof.
  intros Hc.
  pose proof (cascade_of_cases _ emScale point_is_inside is_in_detector_bounds
                get_interaction_neutrino frame primary hull eb sc) as Hcases.
  destruct (get_interaction_neutrino frame primary hull eb sc)
    as [neutrino|]; [|congruence].
  destruct (is_neutrino (particle neutrino)); [|congruence].
  destruct (get_daughters (I3MCTree frame) neutrino) as [|d0 rest] eqn:Hds;
    [congruence|].
  destruct (in_volume point_is_inside is_in_detector_bounds hull eb
                      (pos (particle d0))) eqn:Hin; [|congruence].
  destruct Hcases as (ext & _ & Hfar & Heq).
  rewrite Heq in Hc. injection Hc as <-.
  exists neutrino, d0, rest, ext.
  destruct neutrino as [p ds]. simpl in Hds. subst ds.
  repeat split; assumption.
Qed.


(** X11. A cascade whose interaction neutrino has only invisible
    daughters, each a neutrino or not InIce, has energy 0. *)
Theorem cascade_energy_zero_without_visible_daughters :
  forall (frame : I3Frame) (primary : MCNode)
         (convex_hull : option ConvexHull) (extend_boundary : R)
         (sanity_check : bool) (neutrino : MCNode) (cascade : I3Particle),
    get_interaction_neutrino frame primary convex_hull extend_boundary
                             sanity_check = Some neutrino ->
    cascade_of frame primary convex_hull extend_boundary sanity_check
    = Returns (Some cascade) ->
    Forall (fun d => is_neutrino (particle d) = true
                     \/ location_type (particle d) <> InIce)
           (get_daughters (I3MCTree frame) neutrino) ->
    energy cascade = 0.
Proof.
  intros frame primary hull eb sc neutrino cascade Hnu Hc Hinv.
  destruct (cascade_of_returned _ _ _ _ _ _ Hc)
    as (n & d0 & rest & ext & Hn & Hds & _ & _ & ->).
  rewrite Hnu in Hn. injection Hn as <-. rewrite Hds in Hinv.
  unfold built_cascade, energy at 1.
  clear Hc Hds. revert Hinv. generalize (d0 :: rest) as l. intros l Hinv.
  induction Hinv as [|d ds Hd _ IH]; [reflexivity|].
  simpl. simpl in IH. rewrite IH.
  unfold visible_energy.
  destruct Hd as [Hd|Hd]; [rewrite Hd; lra|].
  destruct (is_neutrino (particle d)); [lra|].
  destruct (location_type (particle d)) eqn:Hloc; try lra.
  exfalso. apply Hd. reflexivity.
Qed.


(** X13. A cascade built for an explicit convex hull deposits its whole
    EM-equivalent energy in that hull: [get_cascade_energy_deposited]
    never takes its zero branch on it. *)
Theorem cascade_energy_deposited_of_built_cascade :
  forall (frame : I3Frame) (primary : MCNode) (hull : ConvexHull)
         (extend_boundary : R) (sanity_check : bool)
         (cascade : I3Particle),
    cascade_of frame primary (Some hull) extend_boundary sanity_check
    = Returns (Some cascade) ->
    get_cascade_energy_deposited emScale point_is_inside frame hull cascade
    = get_cascade_em_equivalent emScale cascade.
Proof.
  intros frame primary hull eb sc cascade Hc.
  destruct (cascade_of_returned _ _ _ _ _ _ Hc)
    as (n & d0 & rest & ext & _ & _ & Hin & _ & ->).
  unfold get_cascade_energy_deposited. simpl in Hin |- *.
  rewrite Hin. reflexivity.
Qed.
End CascadeBuilderProperties.

(** ** The further properties on the worked event *)

(** The position variant on the interaction neutrino of the worked event. *)
Example ex_neutrino_extension_pos :
  get_interaction_extension_pos ex_frame ex_neutrino
  = Returns (Some (mkPos (0 + 0 * 4) (0 + 0 * 4) (0 + 1 * 4))).
Proof. exact ex_neutrino_extension. Qed.



(** X6 on the interaction neutrino. *)
Lemma get_interaction_extension_length_of_pos_witness :
  exists d rest,
    get_daughters (I3MCTree ex_frame) ex_neutrino = d :: rest
    /\ get_interaction_extension_length ex_frame ex_neutrino
       = Returns (magnitude
                    (pos_sub (pos (particle d))
                             (mkPos (0 + 0 * 4) (0 + 0 * 4) (0 + 1 * 4)))).
Proof.
  exact (get_interaction_extension_length_of_pos
           ex_frame ex_neutrino _ ex_neutrino_extension_pos).
Defined.

(** X11 on an interaction neutrino whose only daughter is a neutrino. *)
Lemma cascade_energy_zero_without_visible_daughters_witness :
  exists cascade,
    get_cascade_of_primary_nu ex_emScale ex_point_is_inside
      ex_is_in_detector_bounds ex_get_invisible_neutrino
      ex_frame ex_primary None 200 false
    = Returns (Some cascade)
    /\ energy cascade = 0.
Proof.
  destruct (cascade_of_located
              unit ex_emScale ex_point_is_inside ex_is_in_detector_bounds
              ex_get_invisible_neutrino ex_frame ex_primary None 200 false
              ex_invisible_neutrino ex_nu_out [] eq_refl eq_refl eq_refl
              eq_refl) as (ext & _ & _ & Heq).
  eexists. split; [exact Heq|].
  apply (cascade_energy_zero_without_visible_daughters
           unit ex_emScale ex_point_is_inside ex_is_in_detector_bounds
           ex_get_invisible_neutrino ex_frame ex_primary None 200 false
           ex_invisible_neutrino _ eq_refl Heq).
  constructor; [left; reflexivity | constructor].
Defined.


(** X13 on the worked event with an explicit hull. *)
Lemma cascade_energy_deposited_of_built_cascade_witness :
  exists cascade,
    get_cascade_of_primary_nu ex_emScale ex_point_is_inside
      ex_is_in_detector_bounds ex_get_interaction_neutrino
      ex_frame ex_primary (Some tt) 200 false
    = Returns (Some cascade)
    /\ get_cascade_energy_deposited ex_emScale ex_point_is_inside ex_frame
                                    tt cascade
       = get_cascade_em_equivalent ex_emScale cascade.
Proof.
  destruct (cascade_of_located
              unit ex_emScale ex_point_is_inside ex_is_in_detector_bounds
              ex_get_interaction_neutrino ex_frame ex_primary (Some tt) 200
              false ex_neutrino ex_muon [ex_nu_out; ex_electron]
              eq_refl eq_refl eq_refl eq_refl) as (ext & _ & _ & Heq).
  eexists. split; [exact Heq|].
  exact (cascade_energy_deposited_of_built_cascade
           unit ex_emScale ex_point_is_inside ex_is_in_detector_bounds
           ex_get_interaction_neutrino ex_frame ex_primary tt 200 false
           _ Heq).
Defined.

(** ** Properties of the code on binary64 floats *)

Module F64Facts.
Import Floats F64.
Local Open Scope float_scope.

(** *** The order of float comparisons *)

Ltac sf_signs :=
  repeat match goal with
         | s : bool |- _ => destruct s
         end;
  simpl; try reflexivity; try discriminate; try congruence.

Ltac sf_compare :=
  repeat match goal with
         | |- context [Z.compare ?a ?b] =>
             destruct (Z.compare_spec a b); subst
         | H : context [Z.compare ?a ?b] |- _ =>
             destruct (Z.compare_spec a b); subst
         | |- context [Pos.compare_cont Eq ?a ?b] =>
             change (Pos.compare_cont Eq a b) with (Pos.compare a b);
             destruct (Pos.compare_spec a b); subst
         | H : context [Pos.compare_cont Eq ?a ?b] |- _ =>
             change (Pos.compare_cont Eq a b) with (Pos.compare a b) in H;
             destruct (Pos.compare_spec a b); subst
         end;
  simpl in *; try reflexivity; try discriminate; try lia.

Lemma SFleb_reflexive (x : spec_float) :
  x <> S754_nan -> SFleb x x = true.
Proof.
  unfold SFleb, SFcompare. destruct x as [s|s| |s m e]; intros H; sf_signs;
    rewrite Z.compare_refl;
    change (Pos.compare_cont Eq m m) with (Pos.compare m m);
    rewrite Pos.compare_refl; reflexivity.
Qed.

Lemma SFleb_transitive (x y z : spec_float) :
  SFleb x y = true -> SFleb y z = true -> SFleb x z = true.
Proof.
  unfold SFleb, SFcompare.
  destruct x as [sx|sx| |sx mx ex], y as [sy|sy| |sy my ey],
           z as [sz|sz| |sz mz ez]; sf_signs; intros; sf_compare.
Qed.

Lemma SFleb_SFltb_transitive (x y z : spec_float) :
  SFleb x y = true -> SFltb y z = true -> SFltb x z = true.
Proof.
  unfold SFleb, SFltb, SFcompare.
  destruct x as [sx|sx| |sx mx ex], y as [sy|sy| |sy my ey],
           z as [sz|sz| |sz mz ez]; sf_signs; intros; sf_compare.
Qed.

Lemma SFleb_false_SFltb (x y : spec_float) :
  x <> S754_nan -> y <> S754_nan -> SFleb x y = false -> SFltb y x = true.
Proof.
  unfold SFleb, SFltb, SFcompare.
  destruct x as [sx|sx| |sx mx ex], y as [sy|sy| |sy my ey];
    sf_signs; intros; sf_compare.
Qed.

Lemma SFltb_SFleb (x y : spec_float) :
  SFltb x y = true -> SFleb x y = true.
Proof.
  unfold SFleb, SFltb. destruct (SFcompare x y) as [[| |]|]; congruence.
Qed.

Lemma SFleb_SFltb_absurd (x y : spec_float) :
  SFleb x y = true -> SFltb y x = true -> False.
Proof.
  unfold SFleb, SFltb, SFcompare.
  destruct x as [sx|sx| |sx mx ex], y as [sy|sy| |sy my ey];
    sf_signs; intros; sf_compare.
Qed.

Lemma is_nan_false_spec (x : float) :
  is_nan x = false -> Prim2SF x <> S754_nan.
Proof.
  unfold is_nan. rewrite eqb_spec. intros H Hn. rewrite Hn in H.
  discriminate H.
Qed.

Lemma is_nan_true_spec (x : float) :
  is_nan x = true -> Prim2SF x = S754_nan.
Proof.
  unfold is_nan. rewrite eqb_spec. intros H.
  destruct (Prim2SF x) as [s|s| |s m e] eqn:Hx; [| |reflexivity|];
    exfalso; revert H; unfold SFeqb;
    (assert (Hr : SFleb (Prim2SF x) (Prim2SF x) = true)
      by (apply SFleb_reflexive; rewrite Hx; discriminate));
    rewrite Hx in Hr; unfold SFleb in Hr;
    destruct (SFcompare _ _) as [[| |]|] eqn:Hc; try discriminate;
    revert Hc; unfold SFcompare; sf_signs; intros; sf_compare.
Qed.

Lemma leb_reflexive (x : float) : is_nan x = false -> (x <=? x) = true.
Proof.
  intros H. rewrite leb_spec. apply SFleb_reflexive, is_nan_false_spec, H.
Qed.

Lemma leb_transitive (x y z : float) :
  (x <=? y) = true -> (y <=? z) = true -> (x <=? z) = true.
Proof. rewrite !leb_spec. apply SFleb_transitive. Qed.

Lemma leb_ltb_transitive (x y z : float) :
  (x <=? y) = true -> (y <? z) = true -> (x <? z) = true.
Proof. rewrite !leb_spec, !ltb_spec. apply SFleb_SFltb_transitive. Qed.

Lemma leb_false_ltb (x y : float) :
  is_nan x = false -> is_nan y = false ->
  (x <=? y) = false -> (y <? x) = true.
Proof.
  intros Hx Hy. rewrite leb_spec, ltb_spec.
  apply SFleb_false_SFltb; apply is_nan_false_spec; assumption.
Qed.

Lemma ltb_leb (x y : float) : (x <? y) = true -> (x <=? y) = true.
Proof. rewrite leb_spec, ltb_spec. apply SFltb_SFleb. Qed.

Lemma leb_ltb_absurd (x y : float) :
  (x <=? y) = true -> (y <? x) = true -> False.
Proof. rewrite leb_spec, ltb_spec. apply SFleb_SFltb_absurd. Qed.

(** Nothing is below or equal to NaN. *)
Lemma leb_nan_r (x y : float) : is_nan y = true -> (x <=? y) = false.
Proof.
  intros H. rewrite leb_spec, (is_nan_true_spec _ H).
  unfold SFleb, SFcompare. destruct (Prim2SF x); reflexivity.
Qed.

(** A square root is NaN or at least 0. *)
Lemma binary_round_aux_positive m e l :
  match binary_round_aux prec emax false m e l with
  | S754_zero s | S754_infinity s | S754_finite s _ _ => s = false
  | S754_nan => True
  end.
Proof.
  unfold binary_round_aux.
  destruct (shr_fexp prec emax m e l) as [mrs e'].
  destruct (shr_fexp prec emax _ e' loc_Exact) as [mrs' e''].
  destruct (shr_m mrs'); try exact I; try reflexivity.
  destruct (Z.leb e'' (Z.sub emax prec)); reflexivity.
Qed.

Lemma sqrt_nonneg (x : float) :
  is_nan (sqrt x) = false -> (0 <=? sqrt x) = true.
Proof.
  intros H. apply is_nan_false_spec in H.
  rewrite leb_spec. rewrite sqrt_spec in *.
  change (Prim2SF 0) with (S754_zero false).
  unfold SF64sqrt, SFsqrt in *.
  destruct (Prim2SF x) as [s|[|]| |[|] m e]; try reflexivity;
    try (exfalso; apply H; reflexivity).
  destruct (SFsqrt_core_binary prec emax (Zpos m) e) as [[mz ez] lz].
  pose proof (binary_round_aux_positive mz ez lz) as Hs.
  destruct (binary_round_aux prec emax false mz ez lz) as [s|s| |s m' e'];
    try (exfalso; apply H; reflexivity); subst s; reflexivity.
Qed.

(** *** Distances and endpoints *)

Lemma magnitude_sub (vertex c : I3Position) :
  magnitude (pos_sub vertex c) = distance vertex c.
Proof. reflexivity. Qed.

Lemma distance_at_least_zero (vertex c : I3Position) :
  comparable vertex c -> (0 <=? distance vertex c) = true.
Proof. unfold comparable, distance. apply sqrt_nonneg. Qed.

Lemma distance_nan_below_nothing (vertex c : I3Position) (x : float) :
  is_nan (distance vertex c) = true -> (x <=? distance vertex c) = false.
Proof. apply leb_nan_r. Qed.

Lemma particle_end_pos_is_endpoint (p : I3Particle) :
  particle_end_pos p = endpoint p.
Proof.
  unfold particle_end_pos, endpoint.
  destruct (is_finite (length p) && (0 <? length p)); reflexivity.
Qed.

(** *** The farthest, last-visited candidate on floats *)

Lemma farthest_last_bounds vertex l e :
  comparable vertex e ->
  farthest_last vertex l e ->
  Forall (fun c => (distance vertex c <=? distance vertex e) = true) l.
Proof.
  intros He (before & after & -> & Hb & Ha).
  apply Forall_app; split; [exact Hb|].
  constructor; [apply leb_reflexive, He|].
  eapply Forall_impl; [|exact Ha]. intros c. apply ltb_leb.
Qed.

Lemma farthest_last_member vertex l e : farthest_last vertex l e -> In e l.
Proof.
  intros (before & after & -> & _). apply in_or_app; right; left; reflexivity.
Qed.

Lemma farthest_last_later vertex l1 l2 e :
  Forall (fun c => (distance vertex c <=? distance vertex e) = true) l1 ->
  farthest_last vertex l2 e ->
  farthest_last vertex (l1 ++ l2) e.
Proof.
  intros H1 (before & after & -> & Hb & Ha).
  exists (l1 ++ before), after. split; [now rewrite app_assoc|].
  split; [apply Forall_app; split; assumption | exact Ha].
Qed.

Lemma farthest_last_earlier vertex l1 l2 e :
  farthest_last vertex l1 e ->
  Forall (fun c => (distance vertex c <? distance vertex e) = true) l2 ->
  farthest_last vertex (l1 ++ l2) e.
Proof.
  intros (before & after & -> & Hb & Ha) H2.
  exists before, (after ++ l2). split.
  - now rewrite <- app_assoc.
  - split; [exact Hb | apply Forall_app; split; assumption].
Qed.

Lemma farthest_last_alone vertex e : farthest_last vertex [e] e.
Proof. exists [], []. repeat split; constructor. Qed.

Lemma farthest_last_only_one vertex l e1 e2 :
  farthest_last vertex l e1 -> farthest_last vertex l e2 -> e1 = e2.
Proof.
  intros (b1 & a1 & -> & Hb1 & Ha1) (b2 & a2 & H2 & Hb2 & Ha2).
  revert b2 H2 Hb2.
  induction b1 as [|y b1 IH]; intros [|x b2] H2 Hb2; simpl in H2.
  - now injection H2.
  - injection H2 as -> ->. exfalso.
    apply Forall_inv in Hb2.
    apply Forall_app in Ha1. destruct Ha1 as [_ Ha1].
    apply Forall_inv in Ha1. exact (leb_ltb_absurd _ _ Hb2 Ha1).
  - injection H2 as -> <-. exfalso.
    apply Forall_inv in Hb1.
    apply Forall_app in Ha2. destruct Ha2 as [_ Ha2].
    apply Forall_inv in Ha2. exact (leb_ltb_absurd _ _ Hb1 Ha2).
  - injection H2 as -> H2.
    apply (IH (Forall_inv_tail Hb1) b2 H2 (Forall_inv_tail Hb2)).
Qed.

(** One turn of the loop on comparable candidates. *)
Lemma loop_state_turn vertex seen md me l e :
  Forall (comparable vertex) seen ->
  Forall (comparable vertex) l ->
  loop_state vertex seen md me ->
  farthest_last vertex l e ->
  if md <=? distance vertex e
  then loop_state vertex (seen ++ l) (distance vertex e) (Some e)
  else loop_state vertex (seen ++ l) md me.
Proof.
  intros Hseen Hl Hst Hfar.
  assert (He : comparable vertex e).
  { rewrite Forall_forall in Hl. apply Hl, (farthest_last_member _ _ _ Hfar). }
  destruct (md <=? distance vertex e) eqn:Hcmp.
  - split; [reflexivity|].
    apply farthest_last_later; [|exact Hfar].
    destruct me as [e1|]; simpl in Hst.
    + destruct Hst as [-> Hfar1].
      assert (He1 : comparable vertex e1).
      { rewrite Forall_forall in Hseen.
        apply Hseen, (farthest_last_member _ _ _ Hfar1). }
      eapply Forall_impl; [|apply (farthest_last_bounds _ _ _ He1 Hfar1)].
      intros c Hc. exact (leb_transitive _ _ _ Hc Hcmp).
    + destruct Hst as [-> _]. constructor.
  - destruct me as [e1|]; simpl in Hst.
    + destruct Hst as [-> Hfar1]. split; [reflexivity|].
      assert (He1 : comparable vertex e1).
      { rewrite Forall_forall in Hseen.
        apply Hseen, (farthest_last_member _ _ _ Hfar1). }
      apply farthest_last_earlier; [exact Hfar1|].
      pose proof (leb_false_ltb _ _ He1 He Hcmp) as Hlt.
      eapply Forall_impl; [|apply (farthest_last_bounds _ _ _ He Hfar)].
      intros c Hc. exact (leb_ltb_transitive _ _ _ Hc Hlt).
    + destruct Hst as [_ ->].
      rewrite (distance_at_least_zero _ _ He) in Hcmp. discriminate Hcmp.
Qed.

(** The loop over daughters whose searches deliver their farthest,
    last-visited endpoint. *)
Lemma extension_loop_comparable extension_of vertex daughters :
  Forall (fun d => exists e, extension_of d = Returns (Some e)
                             /\ farthest_last vertex (endpoints d) e)
         daughters ->
  forall seen md me,
    Forall (comparable vertex) seen ->
    Forall (comparable vertex) (flat_map endpoints daughters) ->
    loop_state vertex seen md me ->
    exists md' r,
      extension_loop extension_of vertex daughters md me = Returns r
      /\ loop_state vertex (seen ++ flat_map endpoints daughters) md' r.
Proof.
  induction 1 as [|d rest (e & Hd & He) _ IH]; intros seen md me Hseen Hds Hst.
  - exists md, me. simpl. rewrite app_nil_r. split; [reflexivity|exact Hst].
  - simpl in Hds. apply Forall_app in Hds. destruct Hds as [Hd_cmp Hrest].
    simpl. rewrite Hd. simpl. rewrite magnitude_sub.
    pose proof (loop_state_turn _ _ _ _ _ _ Hseen Hd_cmp Hst He) as Hturn.
    rewrite app_assoc.
    assert (Hseen' : Forall (comparable vertex) (seen ++ endpoints d))
      by (apply Forall_app; split; assumption).
    destruct (md <=? distance vertex e); apply IH; assumption.
Qed.

Lemma found_farthest_last frame vertex (n : MCNode) :
  Forall (comparable vertex) (endpoints n) ->
  exists e, found frame vertex n e /\ farthest_last vertex (endpoints n) e.
Proof.
  induction n as [p ds IH] using MCNode_ind. intros Hcmp.
  simpl in Hcmp. apply Forall_cons_iff in Hcmp. destruct Hcmp as [Hp Hds].
  assert (IH' : Forall (fun d => exists e,
                   get_extension_from_vertex frame d vertex true
                   = Returns (Some e)
                   /\ farthest_last vertex (endpoints d) e) ds).
  { clear Hp. induction IH as [|d rest Hd _ IHrest]; [constructor|].
    simpl in Hds. apply Forall_app in Hds. destruct Hds as [Hd_cmp Hrest].
    constructor; [exact (Hd Hd_cmp) | exact (IHrest Hrest)]. }
  unfold found. simpl.
  destruct (extension_loop_comparable _ vertex ds IH' [endpoint p]
              (magnitude (pos_sub vertex (particle_end_pos p)))
              (Some (particle_end_pos p))) as (md' & r & Hr & Hst).
  - constructor; [exact Hp|constructor].
  - exact Hds.
  - split; [reflexivity|].
    apply farthest_last_alone.
  - rewrite Hr. destruct r as [e|].
    + exists e. split; [reflexivity|]. apply Hst.
    + destruct Hst as [Hnil _]. discriminate Hnil.
Qed.

Lemma search_comparable frame (n : MCNode) vertex flag :
  Forall (comparable vertex) (candidates n flag) ->
  exists r,
    get_extension_from_vertex frame n vertex flag = Returns r
    /\ match r with
       | None => candidates n flag = []
       | Some e => farthest_last vertex (candidates n flag) e
       end.
Proof.
  destruct n as [p ds]. intros Hcmp.
  assert (Hflat : Forall (comparable vertex) (flat_map endpoints ds)).
  { simpl in Hcmp. apply Forall_app in Hcmp. apply Hcmp. }
  assert (Hds : Forall (fun d => exists e,
                   get_extension_from_vertex frame d vertex true
                   = Returns (Some e)
                   /\ farthest_last vertex (endpoints d) e) ds).
  { clear Hcmp. induction ds as [|d rest IHrest]; [constructor|].
    simpl in Hflat. apply Forall_app in Hflat. destruct Hflat as [Hd Hrest].
    constructor; [exact (found_farthest_last frame vertex d Hd)|].
    exact (IHrest Hrest). }
  simpl. destruct flag.
  - destruct (extension_loop_comparable _ vertex ds Hds [endpoint p]
                (magnitude (pos_sub vertex (particle_end_pos p)))
                (Some (particle_end_pos p))) as (md' & r & Hr & Hst).
    + simpl in Hcmp. apply Forall_cons_iff in Hcmp.
      constructor; [apply Hcmp|constructor].
    + exact Hflat.
    + split; [reflexivity|].
      apply farthest_last_alone.
    + exists r. split; [exact Hr|]. destruct r; apply Hst.
  - destruct (extension_loop_comparable _ vertex ds Hds [] 0 None)
      as (md' & r & Hr & Hst).
    + constructor.
    + exact Hflat.
    + split; reflexivity.
    + exists r. split; [exact Hr|]. destruct r; apply Hst.
Qed.

(** *** What the search returns whatever the floats are *)

(** The loop over daughters whose searches return a position: it returns
    the running extension or an endpoint below a daughter. *)
Lemma extension_loop_returns extension_of vertex daughters :
  Forall (fun d => exists e, extension_of d = Returns (Some e)
                             /\ In e (endpoints d)) daughters ->
  forall md me,
    exists r,
      extension_loop extension_of vertex daughters md me = Returns r
      /\ (r = me
          \/ exists e, r = Some e /\ In e (flat_map endpoints daughters)).
Proof.
  induction 1 as [|d rest (e & Hd & He) _ IH]; intros md me.
  - exists me. split; [reflexivity|left; reflexivity].
  - simpl. rewrite Hd. simpl.
    destruct (md <=? magnitude (pos_sub vertex e)).
    + destruct (IH (magnitude (pos_sub vertex e)) (Some e))
        as (r & Hr & [->|(e' & -> & He')]).
      * exists (Some e). split; [exact Hr|]. right. exists e.
        split; [reflexivity|]. apply in_or_app. left. exact He.
      * exists (Some e'). split; [exact Hr|]. right. exists e'.
        split; [reflexivity|]. apply in_or_app. right. exact He'.
    + destruct (IH md me) as (r & Hr & [->|(e' & -> & He')]).
      * exists me. split; [exact Hr|]. left. reflexivity.
      * exists (Some e'). split; [exact Hr|]. right. exists e'.
        split; [reflexivity|]. apply in_or_app. right. exact He'.
Qed.

Lemma found_always frame vertex (n : MCNode) :
  exists e, found frame vertex n e /\ In e (endpoints n).
Proof.
  induction n as [p ds IH] using MCNode_ind.
  unfold found in *. simpl.
  destruct (extension_loop_returns _ vertex ds IH
              (magnitude (pos_sub vertex (particle_end_pos p)))
              (Some (particle_end_pos p)))
    as (r & Hr & [->|(e & -> & He)]).
  - exists (particle_end_pos p). split; [exact Hr|].
    left. symmetry. apply particle_end_pos_is_endpoint.
  - exists e. split; [exact Hr|]. right. exact He.
Qed.

Lemma daughters_found frame vertex (ds : list MCNode) :
  Forall (fun d => exists e,
            get_extension_from_vertex frame d vertex true = Returns (Some e)
            /\ In e (endpoints d)) ds.
Proof. apply Forall_forall. intros d _. apply found_always. Qed.

(** The search never raises. *)
Lemma search_returns frame (n : MCNode) vertex flag :
  exists r,
    get_extension_from_vertex frame n vertex flag = Returns r
    /\ match r with
       | None => flag = false
       | Some e => In e (candidates n flag)
       end.
Proof.
  destruct n as [p ds]. simpl.
  destruct (extension_loop_returns _ vertex ds
              (daughters_found frame vertex ds)
              (if flag then magnitude (pos_sub vertex (particle_end_pos p))
               else 0)
              (if flag then Some (particle_end_pos p) else None))
    as (r & Hr & [->|(e & -> & He)]).
  - eexists. split; [exact Hr|]. destruct flag; [|reflexivity].
    left. symmetry. apply particle_end_pos_is_endpoint.
  - eexists. split; [exact Hr|]. apply in_or_app. right. exact He.
Qed.

(** From a running extension on, the loop returns a position. *)
Lemma extension_loop_keeps_some extension_of vertex daughters :
  Forall (fun d => exists e, extension_of d = Returns (Some e)
                             /\ In e (endpoints d)) daughters ->
  forall md e0,
    exists e,
      extension_loop extension_of vertex daughters md (Some e0)
      = Returns (Some e).
Proof.
  intros Hds md e0.
  destruct (extension_loop_returns _ vertex daughters Hds md (Some e0))
    as (r & Hr & [->|(e & -> & _)]); eexists; exact Hr.
Qed.

(** Without a running extension, the loop returns [None] exactly when no
    daughter's result passes the comparison with 0. *)
Lemma extension_loop_none extension_of vertex daughters :
  Forall (fun d => exists e, extension_of d = Returns (Some e)
                             /\ In e (endpoints d)) daughters ->
  extension_loop extension_of vertex daughters 0 None = Returns None
  <-> Forall (fun d => forall e, extension_of d = Returns (Some e) ->
                                 (0 <=? distance vertex e) = false)
             daughters.
Proof.
  induction 1 as [|d rest (e & Hd & He) Hrest IH].
  - split; [constructor|reflexivity].
  - simpl. rewrite Hd. simpl. rewrite magnitude_sub.
    destruct (0 <=? distance vertex e) eqn:Hcmp.
    + split.
      * intros Hnone.
        destruct (extension_loop_keeps_some _ vertex rest Hrest
                    (distance vertex e) e) as (e' & He').
        rewrite He' in Hnone. discriminate Hnone.
      * intros Hall. apply Forall_inv in Hall.
        rewrite (Hall e Hd) in Hcmp. discriminate Hcmp.
    + rewrite IH. split.
      * intros Hall. constructor; [|exact Hall].
        intros e' He'. rewrite Hd in He'. injection He' as <-. exact Hcmp.
      * intros Hall. exact (Forall_inv_tail Hall).
Qed.

(** *** Claims on the extension finder *)

(** C1, as the code has it.  When no candidate lies at a NaN distance
    from the vertex, [get_extension_from_vertex] returns, among the
    particle's own endpoint (a candidate only when
    [consider_particle_length] is true) and the endpoints of all its
    descendants, the endpoint of maximum distance to the vertex, endpoints
    and distances being the floats the code computes; an endpoint is
    position + direction * length when the length is finite and strictly
    positive and the raw position otherwise; among candidates at the
    maximum distance the one visited last in depth-first daughter order is
    returned.  With no candidate at all the result is [None]. *)
Theorem get_extension_from_vertex_farthest_last_comparable :
  forall (frame : I3Frame) (particle : MCNode) (vertex : I3Position)
         (consider_particle_length : bool),
    Forall (fun c => is_nan (distance vertex c) = false)
           (candidates particle consider_particle_length) ->
    exists r,
      get_extension_from_vertex frame particle vertex
                                consider_particle_length = Returns r
      /\ match r with
         | None => candidates particle consider_particle_length = []
         | Some e =>
             exists before after,
               candidates particle consider_particle_length
               = before ++ e :: after
               /\ Forall (fun c => (distance vertex c <=? distance vertex e)
                                   = true) before
               /\ Forall (fun c => (distance vertex c <? distance vertex e)
                                   = true) after
         end.
Proof.
  intros frame n vertex flag Hcmp.
  destruct (search_comparable frame n vertex flag Hcmp) as (r & Hr & Hres).
  exists r. split; [exact Hr|]. destruct r; exact Hres.
Qed.

(** C1 as claimed fails when a distance is NaN: a particle whose only
    daughter sits at a NaN position has a candidate and yet the search
    without its own length returns nothing; a particle at a NaN position
    is returned by the default search although its daughter, 5 m from the
    vertex, is a candidate that the comparison does not place below it. *)
Lemma get_extension_from_vertex_nan_not_farthest :
  (candidates nan_event false = [mkPos nan 0 0]
   /\ get_extension_from_vertex frame0 nan_event origin false = Returns None)
  /\ (candidates nan_parent_event true = [mkPos nan 0 0; mkPos 0 0 5]
      /\ get_extension_from_vertex frame0 nan_parent_event origin true
         = Returns (Some (mkPos nan 0 0))
      /\ (distance origin (mkPos 0 0 5) <=? distance origin (mkPos nan 0 0))
         = false).
Proof. repeat split; vm_compute; reflexivity. Qed.

(** C1 on the rounded tie: the track end rounds to distance 1, the later
    leaf at distance 1 is returned. *)
Lemma get_extension_from_vertex_farthest_last_comparable_witness :
  exists r,
    get_extension_from_vertex frame0 tie_event origin false = Returns r
    /\ match r with
       | None => candidates tie_event false = []
       | Some e =>
           exists before after,
             candidates tie_event false = before ++ e :: after
             /\ Forall (fun c => (distance origin c <=? distance origin e)
                                 = true) before
             /\ Forall (fun c => (distance origin c <? distance origin e)
                                 = true) after
       end.
Proof.
  apply (get_extension_from_vertex_farthest_last_comparable
           frame0 tie_event origin false).
  vm_compute. repeat constructor.
Defined.

(** The rounded tie, evaluated: the candidates are at distances 0.5, 1, 1
    and 0.25, and the third one is returned. *)
Example tie_event_extension :
  map (distance origin) (candidates tie_event false) = [0.5; 1; 1; 0.25]
  /\ candidates tie_event false
     = [mkPos 0 0 0.5; mkPos 1 0 0; mkPos 0 1 0; mkPos 0 0 0.25]
  /\ get_extension_from_vertex frame0 tie_event origin false
     = Returns (Some (mkPos 0 1 0)).
Proof. repeat split; vm_compute; reflexivity. Qed.

(** C9, as the code has it.  For a particle with a daughter whose own
    search result lies at a distance from the vertex that is not NaN, the
    search with [consider_particle_length=False] never yields [None] and
    raises nothing: it returns an endpoint of a descendant. *)
Theorem get_extension_from_vertex_daughters_some_comparable :
  forall (frame : I3Frame) (particle : MCNode) (vertex : I3Position)
         (d : MCNode) (e : I3Position),
    In d (get_daughters (I3MCTree frame) particle) ->
    get_extension_from_vertex frame d vertex true = Returns (Some e) ->
    is_nan (magnitude (pos_sub vertex e)) = false ->
    exists e',
      get_extension_from_vertex frame particle vertex false
      = Returns (Some e')
      /\ In e' (flat_map endpoints
                         (get_daughters (I3MCTree frame) particle)).
Proof.
  intros frame [p ds] vertex d e Hin Hd Hnan. simpl in Hin |- *.
  destruct (search_returns frame (Node p ds) vertex false)
    as (r & Hr & Hres).
  simpl in Hr. rewrite Hr. destruct r as [e'|].
  - exists e'. split; [reflexivity|exact Hres].
  - exfalso.
    apply (extension_loop_none _ vertex ds (daughters_found frame vertex ds))
      in Hr.
    rewrite Forall_forall in Hr. specialize (Hr d Hin e Hd).
    rewrite magnitude_sub in Hnan.
    rewrite (distance_at_least_zero vertex e Hnan) in Hr. discriminate Hr.
Qed.

(** C9 as claimed fails on the particle whose only daughter sits at a NaN
    position: it has a daughter and the search returns [None]. *)
Lemma get_extension_from_vertex_nan_daughter_none :
  get_daughters (I3MCTree frame0) nan_event = [nan_daughter]
  /\ get_extension_from_vertex frame0 nan_event origin false = Returns None.
Proof. split; vm_compute; reflexivity. Qed.

(** C9 on the rounded tie: its first daughter lies 0.5 from the vertex. *)
Lemma get_extension_from_vertex_daughters_some_comparable_witness :
  exists e',
    get_extension_from_vertex frame0 tie_event origin false
    = Returns (Some e')
    /\ In e' (flat_map endpoints
                       (get_daughters (I3MCTree frame0) tie_event)).
Proof.
  apply (get_extension_from_vertex_daughters_some_comparable
           frame0 tie_event origin tie_near (mkPos 0 0 0.5)).
  - left. reflexivity.
  - vm_compute. reflexivity.
  - vm_compute. reflexivity.
Defined.

(** The search of a particle with a single daughter. *)
Lemma single_daughter_search frame p d vertex e :
  get_extension_from_vertex frame d vertex true = Returns (Some e) ->
  get_extension_from_vertex frame (Node p [d]) vertex false
  = Returns (if is_nan (distance vertex e) then None else Some e).
Proof.
  intros Hd. simpl. rewrite Hd. simpl. rewrite magnitude_sub.
  destruct (is_nan (distance vertex e)) eqn:Hnan.
  - rewrite (leb_nan_r _ _ Hnan). reflexivity.
  - rewrite (distance_at_least_zero vertex e Hnan). reflexivity.
Qed.

(** C10, as the code has it.  [get_interaction_extension_pos] fails its
    assertion exactly below 2 daughters, [get_interaction_extension_length]
    exactly with no daughter.  For a primary with exactly one daughter the
    position variant fails its assertion, while the length variant passes
    its own and returns the distance between the daughter's position and
    the daughter's search result when that distance is not NaN; when it is
    NaN the search yields [None] and the subtraction raises a type
    error. *)
Theorem get_interaction_extension_pos_stricter_assertion :
  forall (frame : I3Frame) (primary : MCNode),
    (get_interaction_extension_pos frame primary
     = Raises (AssertionError "Expected at least 2 daughters")
     <-> (List.length (get_daughters (I3MCTree frame) primary) < 2)%nat)
    /\ (get_interaction_extension_length frame primary
        = Raises (AssertionError "Expected at least 1 daughter")
        <-> List.length (get_daughters (I3MCTree frame) primary) = 0%nat)
    /\ (forall (d : MCNode) (e : I3Position),
           get_daughters (I3MCTree frame) primary = [d] ->
           get_extension_from_vertex frame d (pos (particle d)) true
           = Returns (Some e) ->
           get_interaction_extension_pos frame primary
           = Raises (AssertionError "Expected at least 2 daughters")
           /\ get_interaction_extension_length frame primary
              = if is_nan (magnitude (pos_sub (pos (particle d)) e))
                then Raises TypeError
                else Returns (magnitude (pos_sub (pos (particle d)) e))).
Proof.
  intros frame [p ds]. simpl get_daughters.
  split; [|split].
  - unfold get_interaction_extension_pos. simpl get_daughters.
    destruct ds as [|d0 [|d1 rest]]; simpl.
    + split; [intros _; auto|reflexivity].
    + split; [intros _; auto|reflexivity].
    + split.
      * intros H. exfalso.
        destruct (search_returns frame (Node p (d0 :: d1 :: rest))
                    (pos (particle d0)) false) as (r & Hr & _).
        simpl in Hr. rewrite Hr in H. discriminate H.
      * intros H. exfalso. apply (Nat.lt_irrefl 2).
        eapply Nat.le_lt_trans; [|exact H]. apply le_n_S, le_n_S, Nat.le_0_l.
  - unfold get_interaction_extension_length. simpl get_daughters.
    destruct ds as [|d0 rest]; simpl.
    + split; reflexivity.
    + split; [|discriminate].
      intros H. exfalso.
      destruct (search_returns frame (Node p (d0 :: rest))
                  (pos (particle d0)) false) as (r & Hr & _).
      simpl in Hr. rewrite Hr in H. simpl in H.
      destruct r; discriminate H.
  - intros d e -> Hd. split; [reflexivity|].
    unfold get_interaction_extension_length. simpl get_daughters.
    simpl assert. unfold bind at 1.
    rewrite (single_daughter_search frame p d (pos (particle d)) e Hd).
    rewrite magnitude_sub.
    destruct (is_nan (distance (pos (particle d)) e)); reflexivity.
Qed.

(** C10 as claimed fails on the primary whose only daughter sits at a NaN
    position: the position variant fails its assertion and the length
    variant does not succeed either, it raises a type error. *)
Lemma get_interaction_extension_length_nan_daughter_type_error :
  get_daughters (I3MCTree frame0) nan_event = [nan_daughter]
  /\ get_interaction_extension_pos frame0 nan_event
     = Raises (AssertionError "Expected at least 2 daughters")
  /\ get_interaction_extension_length frame0 nan_event = Raises TypeError.
Proof. repeat split; vm_compute; reflexivity. Qed.

(** C10 on a primary whose only daughter is a track of length 1 from
    x = 2^-53 to x = 1: the length returned is 1 - 2^-53. *)
Lemma get_interaction_extension_pos_stricter_assertion_witness :
  get_interaction_extension_pos frame0 single_event
  = Raises (AssertionError "Expected at least 2 daughters")
  /\ get_interaction_extension_length frame0 single_event
     = Returns 0x1.fffffffffffffp-1.
Proof.
  destruct (get_interaction_extension_pos_stricter_assertion
              frame0 single_event) as (_ & _ & H).
  destruct (H tie_track (mkPos 1 0 0) eq_refl) as [Hpos Hlen].
  - vm_compute. reflexivity.
  - split; [exact Hpos|]. rewrite Hlen. vm_compute. reflexivity.
Defined.

(** *** Further properties of the extension finder on floats *)

(** X2. On candidates none of which lies at a NaN distance, the
    characterisation determines the result: a candidate such that no
    candidate before it is farther from the vertex and every candidate
    after it is strictly nearer is the position the search returns. *)
Theorem get_extension_from_vertex_is_farthest_last_comparable :
  forall (frame : I3Frame) (particle : MCNode) (vertex : I3Position)
         (consider_particle_length : bool) (e : I3Position),
    Forall (fun c => is_nan (distance vertex c) = false)
           (candidates particle consider_particle_length) ->
    farthest_last vertex (candidates particle consider_particle_length) e ->
    get_extension_from_vertex frame particle vertex consider_particle_length
    = Returns (Some e).
Proof.
  intros frame n vertex flag e Hcmp He.
  destruct (search_comparable frame n vertex flag Hcmp) as (r & Hr & Hres).
  rewrite Hr. destruct r as [e'|].
  - rewrite (farthest_last_only_one _ _ _ _ Hres He). reflexivity.
  - apply farthest_last_member in He. rewrite Hres in He. destruct He.
Qed.

(** X2 on the rounded tie: two candidates before the leaf at distance 1,
    one of them the track end at the same distance, and one after it. *)
Lemma get_extension_from_vertex_is_farthest_last_comparable_witness :
  get_extension_from_vertex frame0 tie_event origin false
  = Returns (Some (mkPos 0 1 0)).
Proof.
  apply (get_extension_from_vertex_is_farthest_last_comparable
           frame0 tie_event origin false (mkPos 0 1 0)).
  - vm_compute. repeat constructor.
  - exists [mkPos 0 0 0.5; mkPos 1 0 0], [mkPos 0 0 0.25].
    split; [vm_compute; reflexivity|].
    split; repeat (constructor; try (vm_compute; reflexivity)).
Defined.

(** The search without the particle's own length returns [None] exactly
    when every daughter's result lies at a NaN distance. *)
Lemma get_extension_from_vertex_none_iff_all_nan_aux :
  forall (frame : I3Frame) (p : I3Particle) (daughters : list MCNode)
         (vertex : I3Position),
    get_extension_from_vertex frame (Node p daughters) vertex false
    = Returns None
    <-> Forall (fun d => exists e,
                  get_extension_from_vertex frame d vertex true
                  = Returns (Some e)
                  /\ is_nan (magnitude (pos_sub vertex e)) = true)
               daughters.
Proof.
  intros frame p ds vertex.
  change (get_extension_from_vertex frame (Node p ds) vertex false)
    with (extension_loop
            (fun d => get_extension_from_vertex frame d vertex true)
            vertex ds 0 None).
  rewrite (extension_loop_none _ vertex ds (daughters_found frame vertex ds)).
  rewrite !Forall_forall. split.
  - intros H d Hd.
    destruct (found_always frame vertex d) as (e & He & _).
    exists e. split; [exact He|].
    rewrite magnitude_sub.
    destruct (is_nan (distance vertex e)) eqn:Hnan; [reflexivity|].
    specialize (H d Hd e He).
    rewrite (distance_at_least_zero vertex e Hnan) in H. discriminate H.
  - intros H d Hd e He.
    destruct (H d Hd) as (e' & He' & Hnan).
    rewrite He in He'. injection He' as <-.
    apply leb_nan_r. exact Hnan.
Qed.

(** X3. The search with [consider_particle_length=False] returns [None]
    exactly when every daughter's own search result lies at a NaN distance
    from the vertex, as with no daughter at all. *)
Theorem get_extension_from_vertex_none_iff_all_nan :
  forall (frame : I3Frame) (p : I3Particle) (daughters : list MCNode)
         (vertex : I3Position),
    get_extension_from_vertex frame (Node p daughters) vertex false
    = Returns None
    <-> Forall (fun d => exists e,
                  get_extension_from_vertex frame d vertex true
                  = Returns (Some e)
                  /\ is_nan (magnitude (pos_sub vertex e)) = true)
               daughters.
Proof.
  intros frame p ds vertex.
  change (get_extension_from_vertex frame (Node p ds) vertex false)
    with (extension_loop
            (fun d => get_extension_from_vertex frame d vertex true)
            vertex ds 0 None).
  rewrite (extension_loop_none _ vertex ds (daughters_found frame vertex ds)).
  rewrite !Forall_forall. split.
  - intros H d Hd.
    destruct (found_always frame vertex d) as (e & He & _).
    exists e. split; [exact He|].
    rewrite magnitude_sub.
    destruct (is_nan (distance vertex e)) eqn:Hnan; [reflexivity|].
    specialize (H d Hd e He).
    rewrite (distance_at_least_zero vertex e Hnan) in H. discriminate H.
  - intros H d Hd e He.
    destruct (H d Hd) as (e' & He' & Hnan).
    rewrite He in He'. injection He' as <-.
    apply leb_nan_r. exact Hnan.
Qed.

(** X7. When no descendant endpoint lies at a NaN distance from the first
    daughter's position, [get_interaction_extension_length] returns the
    largest of these distances: no descendant endpoint is farther and one
    is exactly that far. *)
Theorem get_interaction_extension_length_is_max_comparable :
  forall (frame : I3Frame) (primary d : MCNode) (rest : list MCNode),
    get_daughters (I3MCTree frame) primary = d :: rest ->
    Forall (fun c => is_nan (distance (pos (particle d)) c) = false)
           (flat_map endpoints (d :: rest)) ->
    exists l,
      get_interaction_extension_length frame primary = Returns l
      /\ Forall (fun c => (distance (pos (particle d)) c <=? l) = true)
                (flat_map endpoints (d :: rest))
      /\ exists c, In c (flat_map endpoints (d :: rest))
                   /\ l = distance (pos (particle d)) c.
Proof.
  intros frame [p ds] d rest Hds Hcmp. simpl in Hds. subst ds.
  destruct (search_comparable frame (Node p (d :: rest))
              (pos (particle d)) false Hcmp) as (r & Hr & Hres).
  destruct r as [e|].
  2:{ exfalso. simpl in Hres. apply app_eq_nil in Hres.
      destruct d; discriminate (proj1 Hres). }
  change (candidates (Node p (d :: rest)) false)
    with (flat_map endpoints (d :: rest)) in Hres.
  assert (He : comparable (pos (particle d)) e).
  { rewrite Forall_forall in Hcmp.
    apply Hcmp, (farthest_last_member _ _ _ Hres). }
  exists (distance (pos (particle d)) e). split; [|split].
  - unfold get_interaction_extension_length.
    simpl get_daughters. simpl assert. unfold bind at 1.
    rewrite Hr. reflexivity.
  - exact (farthest_last_bounds _ _ _ He Hres).
  - exists e. split; [exact (farthest_last_member _ _ _ Hres)|reflexivity].
Qed.

(** X7 on the rounded tie, seen from its first daughter at z = 0.5. *)
Lemma get_interaction_extension_length_is_max_comparable_witness :
  exists l,
    get_interaction_extension_length frame0 tie_event = Returns l
    /\ Forall (fun c => (distance (pos (particle tie_near)) c <=? l) = true)
              (flat_map endpoints [tie_near; tie_track; tie_leaf; tie_last])
    /\ exists c,
        In c (flat_map endpoints [tie_near; tie_track; tie_leaf; tie_last])
        /\ l = distance (pos (particle tie_near)) c.
Proof.
  apply (get_interaction_extension_length_is_max_comparable
           frame0 tie_event tie_near [tie_track; tie_leaf; tie_last]).
  - reflexivity.
  - vm_compute. repeat constructor.
Defined.

(** *** The cascade builder on floats *)

Section CascadeOnFloats.
Variable ConvexHull : Type.
Variable emScale : ParticleType -> float -> float.
Variable point_is_inside : ConvexHull -> float * float * float -> bool.
Variable is_in_detector_bounds : I3Position -> float -> bool.
Variable get_interaction_neutrino :
  I3Frame -> MCNode -> option ConvexHull -> float -> bool -> option MCNode.

Local Abbreviation cascade_of :=
  (get_cascade_of_primary_nu emScale point_is_inside is_in_detector_bounds
                             get_interaction_neutrino).
Local Abbreviation inside :=
  (in_volume point_is_inside is_in_detector_bounds).

(** The runs of the builder, case by case. *)
Lemma cascade_runs frame primary hull eb sc :
  match get_interaction_neutrino frame primary hull eb sc with
  | None => cascade_of frame primary hull eb sc = Returns None
  | Some neutrino =>
      if is_neutrino (particle neutrino) then
        match get_daughters (I3MCTree frame) neutrino with
        | [] =>
            cascade_of frame primary hull eb sc
            = Raises (AssertionError "Expected at least one daughter!")
        | d0 :: rest =>
            if inside hull eb (pos (particle d0)) then
              exists r,
                get_extension_from_vertex frame neutrino
                  (pos (particle d0)) false = Returns r
                /\ cascade_of frame primary hull eb sc
                   = match r with
                     | None => Raises TypeError
                     | Some e =>
                         Returns
                           (Some (built_cascade primary neutrino d0
                                    (distance (pos (particle d0)) e)
                                    (fold_left (add_daughter_energy emScale)
                                               (d0 :: rest) 0)))
                     end
            else
              cascade_of frame primary hull eb sc
              = Raises (AssertionError
                   "Expected interaction to be inside defined volume!")
        end
      else cascade_of frame primary hull eb sc = Returns None
  end.
Proof.
  destruct (get_interaction_neutrino frame primary hull eb sc)
    as [neutrino|] eqn:Hnu.
  2:{ unfold get_cascade_of_primary_nu. rewrite Hnu. reflexivity. }
  destruct (is_neutrino (particle neutrino)) eqn:Hisnu.
  2:{ unfold get_cascade_of_primary_nu. rewrite Hnu, Hisnu. reflexivity. }
  destruct (get_daughters (I3MCTree frame) neutrino) as [|d0 rest] eqn:Hds.
  { unfold get_cascade_of_primary_nu. rewrite Hnu, Hisnu, Hds.
    reflexivity. }
  destruct (inside hull eb (pos (particle d0))) eqn:Hin.
  - destruct (search_returns frame neutrino (pos (particle d0)) false)
      as (r & Hr & _).
    exists r. split; [exact Hr|].
    unfold get_cascade_of_primary_nu, get_interaction_extension_length.
    rewrite Hnu, Hisnu, Hds. simpl negb. cbv iota.
    unfold in_volume in Hin.
    change (0 <? List.length (d0 :: rest))%nat with true.
    unfold assert at 1. unfold bind at 1.
    destruct hull as [h|]; rewrite Hin; unfold assert, bind at 1;
      unfold bind at 1; unfold bind at 1; rewrite Hr;
      destruct r; reflexivity.
  - unfold get_cascade_of_primary_nu. rewrite Hnu, Hisnu, Hds.
    unfold in_volume in Hin. simpl negb. cbv iota.
    change (0 <? List.length (d0 :: rest))%nat with true.
    unfold assert at 1. unfold bind at 1.
    destruct hull as [h|]; rewrite Hin; reflexivity.
Qed.

(** X9. The builder ends in one of five ways only: it returns [None], it
    returns a cascade, it fails one of its two assertions, or it raises a
    type error; the last happens only when the interaction neutrino has
    daughters, the first of them inside the volume, and every daughter's
    search result lies at a NaN distance from the first daughter's
    position.  It never fails on indexing an empty daughter list. *)
Theorem cascade_outcomes_on_floats :
  forall (frame : I3Frame) (primary : MCNode)
         (convex_hull : option ConvexHull) (extend_boundary : float)
         (sanity_check : bool),
    cascade_of frame primary convex_hull extend_boundary sanity_check
    = Returns None
    \/ (exists cascade,
          cascade_of frame primary convex_hull extend_boundary sanity_check
          = Returns (Some cascade))
    \/ cascade_of frame primary convex_hull extend_boundary sanity_check
       = Raises (AssertionError "Expected at least one daughter!")
    \/ cascade_of frame primary convex_hull extend_boundary sanity_check
       = Raises (AssertionError
                   "Expected interaction to be inside defined volume!")
    \/ (cascade_of frame primary convex_hull extend_boundary sanity_check
        = Raises TypeError
        /\ exists neutrino d0 rest,
            get_interaction_neutrino frame primary convex_hull
                                     extend_boundary sanity_check
            = Some neutrino
            /\ get_daughters (I3MCTree frame) neutrino = d0 :: rest
            /\ inside convex_hull extend_boundary (pos (particle d0)) = true
            /\ Forall (fun d => exists e,
                         get_extension_from_vertex frame d
                           (pos (particle d0)) true = Returns (Some e)
                         /\ is_nan (magnitude
                                      (pos_sub (pos (particle d0)) e))
                            = true)
                      (d0 :: rest)).
Proof.
  intros frame primary hull eb sc.
  pose proof (cascade_runs frame primary hull eb sc) as Hruns.
  destruct (get_interaction_neutrino frame primary hull eb sc)
    as [neutrino|]; [|left; exact Hruns].
  destruct (is_neutrino (particle neutrino)); [|left; exact Hruns].
  destruct (get_daughters (I3MCTree frame) neutrino) as [|d0 rest] eqn:Hds;
    [right; right; left; exact Hruns|].
  destruct (inside hull eb (pos (particle d0))) eqn:Hin;
    [|right; right; right; left; exact Hruns].
  destruct Hruns as (r & Hr & Heq). destruct r as [e|].
  - right; left. eexists. exact Heq.
  - right; right; right; right. split; [exact Heq|].
    exists neutrino, d0, rest. repeat split; try assumption.
    destruct neutrino as [p ds]. simpl in Hds. subst ds.
    apply (get_extension_from_vertex_none_iff_all_nan_aux
             frame p (d0 :: rest) (pos (particle d0))). exact Hr.
Qed.

(** X10. A returned cascade encloses the interaction: when no endpoint of
    a descendant of the interaction neutrino lies at a NaN distance from
    the cascade's position, none of them is farther from that position
    than the cascade's length. *)
Theorem cascade_length_encloses_comparable_descendants :
  forall (frame : I3Frame) (primary : MCNode)
         (convex_hull : option ConvexHull) (extend_boundary : float)
         (sanity_check : bool) (neutrino : MCNode) (cascade : I3Particle),
    get_interaction_neutrino frame primary convex_hull extend_boundary
                             sanity_check = Some neutrino ->
    cascade_of frame primary convex_hull extend_boundary sanity_check
    = Returns (Some cascade) ->
    Forall (fun c => is_nan (distance (pos cascade) c) = false)
           (flat_map endpoints (get_daughters (I3MCTree frame) neutrino)) ->
    Forall (fun c => (distance (pos cascade) c <=? length cascade) = true)
           (flat_map endpoints (get_daughters (I3MCTree frame) neutrino)).
Proof.
  intros frame primary hull eb sc neutrino cascade Hnu Hc Hcmp.
  pose proof (cascade_runs frame primary hull eb sc) as Hruns.
  rewrite Hnu in Hruns.
  destruct (is_neutrino (particle neutrino)); [|congruence].
  destruct (get_daughters (I3MCTree frame) neutrino) as [|d0 rest] eqn:Hds;
    [congruence|].
  destruct (inside hull eb (pos (particle d0))); [|congruence].
  destruct Hruns as (r & Hr & Heq). rewrite Heq in Hc.
  destruct r as [e|]; [|discriminate Hc]. injection Hc as <-.
  simpl pos in *. simpl length.
  destruct neutrino as [p ds]. simpl in Hds. subst ds.
  destruct (search_comparable frame (Node p (d0 :: rest))
              (pos (particle d0)) false Hcmp) as (r' & Hr' & Hres).
  rewrite Hr in Hr'. injection Hr' as <-.
  change (candidates (Node p (d0 :: rest)) false)
    with (flat_map endpoints (d0 :: rest)) in Hres.
  apply (farthest_last_bounds _ _ _ (proj1 (Forall_forall _ _) Hcmp e
           (farthest_last_member _ _ _ Hres)) Hres).
Qed.
End CascadeOnFloats.

(** The builder on the neutrino whose only daughter is a track with a NaN
    direction: the daughter is inside the volume, its end position is
    NaN, the search returns nothing and the builder raises a type
    error. *)
Example nan_direction_cascade :
  get_extension_from_vertex frame0 nan_direction_event origin false
  = Returns None
  /\ get_cascade_of_primary_nu unit_scale everywhere_inside
       everywhere_in_bounds (finds nan_direction_event)
       frame0 nan_direction_event None 200 false
     = Raises TypeError.
Proof. split; vm_compute; reflexivity. Qed.

(** The builder on the rounded tie. *)
Example tie_cascade :
  get_cascade_of_primary_nu unit_scale everywhere_inside
    everywhere_in_bounds (finds tie_event) frame0 tie_event None 200 false
  = Returns (Some (mkParticle 1 NuMu (mkPos 0 0 0.5) (mkDir 0 0 1) 0 4
                              0x1.1e3779b97f4a8p+0 Cascade InIce)).
Proof. vm_compute. reflexivity. Qed.

(** X10 on the rounded tie. *)
Lemma cascade_length_encloses_comparable_descendants_witness :
  Forall (fun c => (distance (mkPos 0 0 0.5) c <=? 0x1.1e3779b97f4a8p+0)
                   = true)
         (flat_map endpoints (get_daughters (I3MCTree frame0) tie_event)).
Proof.
  apply (cascade_length_encloses_comparable_descendants
           unit unit_scale everywhere_inside everywhere_in_bounds
           (finds tie_event) frame0 tie_event None 200 false tie_event
           _ eq_refl tie_cascade).
  vm_compute. repeat constructor.
Defined.
End F64Facts.
